(** * Bati web chat: the message exchange and the theme listener

    A shallow embedding of the two variants of [App.tsx] (the mock reply
    generator and the HTTP client) and of [main.tsx] (the cross-tab theme
    listener), with the properties of the message store, the composer, the
    reply producers and the listener.

    Conventions.
    - A JavaScript string is a Rocq [string]: the bytes of its UTF-8
      encoding.  Every literal of the source is written as it is there.
    - A React state variable is a field of the component state; a setter
      call is a field update; a functional updater is a Rocq function.
    - [crypto.randomUUID()] and [Date.now()] are read from an environment:
      the [n]-th message built during the page view gets the [n]-th answer
      of each.  The source calls them in pairs, once per message literal. *)

From Stdlib Require Import String Ascii List Bool Arith NArith ZArith Lia.
From Stdlib Require Import DecimalString DecimalNat Permutation Sorted.
Import ListNotations.
Open Scope string_scope.
Set Warnings "-register-all".

(** ** JavaScript string primitives *)

Module JsString.

Definition code (a : ascii) : N := N_of_ascii a.

Definition LF : string := String (ascii_of_N 10) "".

(** [String.prototype.trim] strips WhiteSpace and LineTerminator code points.
    In UTF-8 these are the six one-byte controls below, U+00A0 (two bytes)
    and U+1680, U+2000..U+200A, U+2028, U+2029, U+202F, U+205F, U+3000 and
    U+FEFF (three bytes each). *)
Definition ws1 (a : ascii) : bool :=
  let n := code a in ((9 <=? n) && (n <=? 13))%N || (n =? 32)%N.

Definition ws2 (a b : ascii) : bool :=
  ((code a =? 194) && (code b =? 160))%N.

Definition ws3 (a b c : ascii) : bool :=
  let x := code a in
  let y := code b in
  let z := code c in
  ((x =? 225) && (y =? 154) && (z =? 128))%N
  || ((x =? 226) && (y =? 128)
        && (((128 <=? z) && (z <=? 138)) || (z =? 168) || (z =? 169) || (z =? 175)))%N
  || ((x =? 226) && (y =? 129) && (z =? 159))%N
  || ((x =? 227) && (y =? 128) && (z =? 128))%N
  || ((x =? 239) && (y =? 187) && (z =? 191))%N.

Fixpoint trimStart (s : string) : string :=
  match s with
  | String a r1 =>
      if ws1 a then trimStart r1 else
      match r1 with
      | String b r2 =>
          if ws2 a b then trimStart r2 else
          match r2 with
          | String c r3 => if ws3 a b c then trimStart r3 else s
          | EmptyString => s
          end
      | EmptyString => s
      end
  | EmptyString => s
  end.

(** The string is made of white space only (the empty string included). *)
Fixpoint whitespace_only (s : string) : bool :=
  match s with
  | String a r1 =>
      if ws1 a then whitespace_only r1 else
      match r1 with
      | String b r2 =>
          if ws2 a b then whitespace_only r2 else
          match r2 with
          | String c r3 => ws3 a b c && whitespace_only r3
          | EmptyString => false
          end
      | EmptyString => false
      end
  | EmptyString => true
  end.

(** Drops the longest suffix made of white space. *)
Fixpoint trimEnd (s : string) : string :=
  match s with
  | String a r => if whitespace_only s then "" else String a (trimEnd r)
  | EmptyString => ""
  end.

Definition trim (s : string) : string := trimEnd (trimStart s).

(** JavaScript truthiness of a string: [!text] holds of the empty string
    only. *)
Definition truthy (s : string) : bool :=
  match s with
  | EmptyString => false
  | String _ _ => true
  end.

(** [a.startsWith(p)] is the library's [prefix p a]; [a.includes(p)]: *)
Fixpoint includes (p s : string) : bool :=
  prefix p s ||
  match s with
  | String _ r => includes p r
  | EmptyString => false
  end.

(** [s.split("\n")]. *)
Fixpoint lines (s : string) : list string :=
  match s with
  | EmptyString => [""]
  | String c r =>
      if (code c =? 10)%N then "" :: lines r
      else match lines r with
           | l :: ls => String c l :: ls
           | [] => [String c ""]
           end
  end.

(** The lines strictly between the first and the last one. *)
Definition inner_lines (s : string) : list string :=
  removelast (tl (lines s)).

(** [xs.join("\n")] is the library's [String.concat LF xs]. *)
Definition join_lines (xs : list string) : string := String.concat LF xs.

(** *** Regular expressions of the mock: alternatives of literals, flag [i]

    Without the [u] flag, case-insensitive matching compares code units
    after [Canonicalize]: upper-casing, except that a non-ASCII code unit is
    never mapped to an ASCII one.  An ASCII letter of a pattern is therefore
    matched by its two ASCII cases and by nothing else; on UTF-8 bytes that
    is upper-casing of [a]..[z]. *)
Definition canonicalize (a : ascii) : ascii :=
  let n := code a in
  if ((97 <=? n) && (n <=? 122))%N then ascii_of_N (n - 32) else a.

(** The literal [p] matches at the start of [s]. *)
Fixpoint matches_at (p s : string) : bool :=
  match p, s with
  | EmptyString, _ => true
  | String x p', String y s' =>
      Ascii.eqb (canonicalize x) (canonicalize y) && matches_at p' s'
  | String _ _, EmptyString => false
  end.

(** [/p1|p2|.../i.test(s)]: some alternative matches at some position. *)
Fixpoint regexp_test (alternatives : list string) (s : string) : bool :=
  existsb (fun p => matches_at p s) alternatives ||
  match s with
  | String _ r => regexp_test alternatives r
  | EmptyString => false
  end.

End JsString.

Import JsString.

(** ** JavaScript values and errors, as far as the chat code meets them *)

Module Js.

(** What [JSON.parse] can return, and [undefined], which a property read can
    return.  A number is kept as its lexeme; an object as its own properties
    in insertion order. *)
Inductive value : Type :=
| Undefined
| Null
| Bool (b : bool)
| Num (lexeme : string)
| Str (s : string)
| Arr (items : list value)
| Obj (props : list (string * value)).

(** An [Error] object (also [TypeError], [SyntaxError], [DOMException]). *)
Record Error : Type := mkError { name : string; message : string }.

(** [new Error(msg)]. *)
Definition new_Error (msg : string) : Error :=
  {| name := "Error"; message := msg |}.

(** [Error.prototype.toString]. *)
Definition Error_toString (e : Error) : string :=
  if truthy (name e) then
    if truthy (message e) then name e ++ ": " ++ message e else name e
  else message e.

Fixpoint own_property (props : list (string * value)) (key : string) : value :=
  match props with
  | [] => Undefined
  | (k, v) :: rest => if String.eqb k key then v else own_property rest key
  end.

(** The engine's words for a property read on [null] or [undefined] (V8's
    are shown; nothing below depends on them). *)
Definition cannot_read (what key : string) : Error :=
  {| name := "TypeError";
     message := "Cannot read properties of " ++ what ++ " (reading '" ++ key ++ "')" |}.

(** [v.key] for a key that no built-in prototype defines, such as [reply]:
    throws on [null] and [undefined], reads the own property of an object, and
    is [undefined] on every other value. *)
Definition get (v : value) (key : string) : Error + value :=
  match v with
  | Undefined => inl (cannot_read "undefined" key)
  | Null => inl (cannot_read "null" key)
  | Obj props => inr (own_property props key)
  | Bool _ | Num _ | Str _ | Arr _ => inr Undefined
  end.

(** [`${n}`] for a non-negative integer. *)
Definition Number_toString (n : N) : string :=
  NilZero.string_of_uint (N.to_uint n).

Definition DQ : string := String (ascii_of_N 34) "".
Definition BSL : string := String (ascii_of_N 92) "".

Definition hex_digit (n : N) : ascii :=
  if (n <? 10)%N then ascii_of_N (48 + n) else ascii_of_N (87 + n).

(** [QuoteJSONString], one code unit at a time. *)
Definition quote_unit (a : ascii) : string :=
  let n := code a in
  if (n =? 34)%N then BSL ++ DQ
  else if (n =? 92)%N then BSL ++ BSL
  else if (n =? 8)%N then BSL ++ "b"
  else if (n =? 9)%N then BSL ++ "t"
  else if (n =? 10)%N then BSL ++ "n"
  else if (n =? 12)%N then BSL ++ "f"
  else if (n =? 13)%N then BSL ++ "r"
  else if (n <? 32)%N then
    BSL ++ "u00" ++ String (hex_digit (n / 16)) (String (hex_digit (n mod 16)) "")
  else String a "".

Fixpoint quote_units (s : string) : string :=
  match s with
  | EmptyString => ""
  | String a r => quote_unit a ++ quote_units r
  end.

Definition quote (s : string) : string := DQ ++ quote_units s ++ DQ.

(** [JSON.stringify({ key: s })] for a string [s]. *)
Definition JSON_stringify_field (key s : string) : string :=
  "{" ++ quote key ++ ":" ++ quote s ++ "}".

(** The reader's side, as a JSON parser has it, for the texts above.  A
    string literal is read from after its opening quote; the result is the
    string and what follows the closing quote.  Of the [\u] escapes the
    ASCII ones are read (others would need their UTF-8 encoding). *)
Definition hex_value (a : ascii) : option N :=
  let n := code a in
  if ((48 <=? n) && (n <=? 57))%N then Some (n - 48)%N
  else if ((97 <=? n) && (n <=? 102))%N then Some (n - 87)%N
  else if ((65 <=? n) && (n <=? 70))%N then Some (n - 55)%N
  else None.

Definition escaped (k : N) : option N :=
  if (k =? 34)%N then Some 34%N
  else if (k =? 92)%N then Some 92%N
  else if (k =? 47)%N then Some 47%N
  else if (k =? 98)%N then Some 8%N
  else if (k =? 102)%N then Some 12%N
  else if (k =? 110)%N then Some 10%N
  else if (k =? 114)%N then Some 13%N
  else if (k =? 116)%N then Some 9%N
  else None.

Definition ascii_escape (h1 h2 h3 h4 : ascii) : option N :=
  match hex_value h1, hex_value h2, hex_value h3, hex_value h4 with
  | Some 0%N, Some 0%N, Some x, Some y =>
      if (x <? 8)%N then Some (16 * x + y)%N else None
  | _, _, _, _ => None
  end.

Definition read_more (n : N) (more : option (string * string))
  : option (string * string) :=
  match more with
  | Some (t, rest) => Some (String (ascii_of_N n) t, rest)
  | None => None
  end.

Fixpoint unquote_units (s : string) : option (string * string) :=
  match s with
  | EmptyString => None
  | String a r =>
      let n := code a in
      if (n =? 34)%N then Some ("", r)
      else if (n =? 92)%N then
        match r with
        | String e r1 =>
            if (code e =? 117)%N then
              match r1 with
              | String h1 (String h2 (String h3 (String h4 r2))) =>
                  match ascii_escape h1 h2 h3 h4 with
                  | Some c => read_more c (unquote_units r2)
                  | None => None
                  end
              | _ => None
              end
            else
              match escaped (code e) with
              | Some c => read_more c (unquote_units r1)
              | None => None
              end
        | EmptyString => None
        end
      else if (n <? 32)%N then None
      else read_more n (unquote_units r)
  end.

(** Reads [{"key":"value"}] back into the key and the value. *)
Definition JSON_parse_field (s : string) : option (string * string) :=
  match s with
  | String c0 (String c1 r) =>
      if ((code c0 =? 123) && (code c1 =? 34))%N then
        match unquote_units r with
        | Some (k, String c2 (String c3 r')) =>
            if ((code c2 =? 58) && (code c3 =? 34))%N then
              match unquote_units r' with
              | Some (v, String c4 EmptyString) =>
                  if (code c4 =? 125)%N then Some (k, v) else None
              | _ => None
              end
            else None
        | _ => None
        end
      else None
  | _ => None
  end.

End Js.

(** ** The message store, shared by the two variants of [App.tsx] *)

Module Chat.

Inductive Role : Type := user | agent.

(** [text] is typed [string] in the source; the network variant stores
    [data.reply] of an untyped response there, so any value can land in it. *)
Record Message : Type := mkMessage {
  id : string;
  role : Role;
  text : Js.value;
  createdAt : Z
}.

(** The identifiers and clock readings the page view receives. *)
Record Env : Type := mkEnv {
  randomUUID : nat -> string;
  Date_now : nat -> Z
}.

(** The message literal [{ id: crypto.randomUUID(), role, text, createdAt:
    Date.now() }], evaluated as the [n]-th one of the page view. *)
Definition literal (env : Env) (n : nat) (r : Role) (t : Js.value) : Message :=
  {| id := randomUUID env n; role := r; text := t; createdAt := Date_now env n |}.

(** Component state: the two [useState] cells, the asynchronous work that
    is under way (timers of the mock, requests of the network variant) and
    the number of message literals evaluated so far. *)
Record State (Work : Type) : Type := mkState {
  messages : list Message;
  input : string;
  pending : list Work;
  built : nat
}.
Arguments mkState {Work}.
Arguments messages {Work}.
Arguments input {Work}.
Arguments pending {Work}.
Arguments built {Work}.

Definition setMessages {Work} (updater : list Message -> list Message)
  (s : State Work) : State Work :=
  {| messages := updater (messages s); input := input s;
     pending := pending s; built := built s |}.

Definition setInput {Work} (v : string) (s : State Work) : State Work :=
  {| messages := messages s; input := v;
     pending := pending s; built := built s |}.

(** One more message literal has been evaluated. *)
Definition tick {Work} (s : State Work) : State Work :=
  {| messages := messages s; input := input s;
     pending := pending s; built := S (built s) |}.

Definition spawn {Work} (t : Work) (s : State Work) : State Work :=
  {| messages := messages s; input := input s;
     pending := (pending s ++ [t])%list; built := built s |}.

Fixpoint remove_nth {A} (k : nat) (l : list A) : list A :=
  match k, l with
  | _, [] => []
  | O, _ :: r => r
  | S k', x :: r => x :: remove_nth k' r
  end.

Definition retire {Work} (k : nat) (s : State Work) : State Work :=
  {| messages := messages s; input := input s;
     pending := remove_nth k (pending s); built := built s |}.

Definition greeting : string :=
  "Hi! I'm Bati. Tell me what you want to make and I'll plan a batch job for you. ✨".

(** First render: [useState] keeps the value of its argument. *)
Definition init {Work} (env : Env) : State Work :=
  {| messages := [literal env 0 agent (Js.Str greeting)];
     input := ""; pending := []; built := 1 |}.

(** Any later render evaluates the argument of [useState] again and drops
    the result. *)
Definition render {Work} (s : State Work) : State Work := tick s.

(** [onChange={(e) => setInput(e.target.value)}]. *)
Definition onChange {Work} (value : string) (s : State Work) : State Work :=
  setInput value s.

(** [ChatBubble]: the list item and the text it shows.  The two variants
    differ in colours only. *)
Record Bubble : Type := mkBubble {
  className : string;
  children : Js.value
}.

Definition ChatBubble (r : Role) (t : Js.value) : Bubble :=
  let isUser := match r with user => true | agent => false end in
  {| className := "flex " ++ (if isUser then "justify-end" else "justify-start");
     children := t |}.

(** [messages.map((m) => <ChatBubble key={m.id} role={m.role} text={m.text} />)]:
    the keys and the bubbles, top to bottom. *)
Definition bubbles (msgs : list Message) : list (string * Bubble) :=
  map (fun m => (id m, ChatBubble (role m) (text m))) msgs.

(** The messages of one role, in store order. *)
Definition by_role (r : Role) (msgs : list Message) : list Message :=
  filter (fun m => match r, role m with
                   | user, user | agent, agent => true
                   | _, _ => false
                   end) msgs.

(** Each user message has its reply, shown or under way: the greeting
    aside, the agent messages and the pending work are as many as the user
    messages. *)
Definition replies_accounted {Work} (s : State Work) : Prop :=
  S (length (by_role user (messages s)))
  = length (by_role agent (messages s)) + length (pending s).

(** The identifier of [m] is one of the first [n] that were drawn. *)
Definition drawn_before (env : Env) (n : nat) (m : Message) : Prop :=
  exists k, k < n /\ id m = randomUUID env k.

(** The generator never hands out an identifier twice. *)
Definition fresh_identifiers (env : Env) : Prop :=
  forall i j, randomUUID env i = randomUUID env j -> i = j.

End Chat.

(** ** [App.tsx], the variant with the mock reply generator *)

Module MockApp.
Import Chat.

(** A timer set by [setTimeout(..., 400)]: its callback is
    [() => setMessages((prev) => [...prev, agentMsg])], so the timer is
    known by the [agentMsg] it has captured.  All timers have the same
    delay, hence expire in the order they were set. *)
Definition Work : Type := Message.

Definition action_keywords : list string := ["generate"; "make"; "create"].

Definition subject_keywords : list string :=
  ["image"; "poster"; "promo"; "batch"; "gallery"; "variant"; "ig"; "tiktok";
   "facebook"].

Definition acknowledgement (text : string) : string :=
  "Got it: " ++ Js.DQ ++ text ++ Js.DQ
    ++ ". I can create a batch job or answer questions.".

Definition looksLikeBatch (text : string) : bool :=
  regexp_test action_keywords text && regexp_test subject_keywords text.

Definition plan : list string :=
  [ "Plan:";
    "• Seeds: detect from context or ask you to upload";
    "• Sizes: 1080×1080 (IG), 1080×1920 (TikTok)";
    "• Count: 8";
    "• Overlay: headline + optional quote";
    "Say “create batch” to enqueue a mock job (we’ll wire the backend next)." ].

Definition planLines (text : string) : list string :=
  if looksLikeBatch text then plan else [].

Definition reply (text : string) : string :=
  join_lines
    (acknowledgement text ::
       match planLines text with
       | [] => []
       | _ :: _ => "" :: planLines text
       end).

Definition mockAgentReply (env : Env) (text : string) (s : State Work)
  : State Work :=
  let agentMsg := literal env (built s) agent (Js.Str (reply text)) in
  spawn agentMsg (tick s).

(** The oldest timer expires and its callback runs. *)
Definition timeout (s : State Work) : State Work :=
  match pending s with
  | [] => s
  | agentMsg :: _ =>
      setMessages (fun prev => prev ++ [agentMsg])%list (retire 0 s)
  end.

Definition handleSend (env : Env) (s : State Work) : State Work :=
  let text := trim (input s) in
  if negb (truthy text) then s
  else
    let userMsg := literal env (built s) user (Js.Str text) in
    let s1 := setMessages (fun prev => prev ++ [userMsg])%list (tick s) in
    let s2 := setInput "" s1 in
    mockAgentReply env text s2.

Inductive Event : Type :=
| Render
| Change (value : string)
| Submit
| Timeout.

Definition step (env : Env) (s : State Work) (ev : Event) : State Work :=
  match ev with
  | Render => render s
  | Change v => onChange v s
  | Submit => handleSend env s
  | Timeout => timeout s
  end.

Definition run (env : Env) (evs : list Event) : State Work :=
  fold_left (step env) evs (init env).

(** Every message made so far, shown or still held by a timer. *)
Definition created (s : State Work) : list Message :=
  (messages s ++ pending s)%list.

(** The identifiers made so far are pairwise distinct, and each was drawn
    from the generator. *)
Definition distinct_identifiers (env : Env) (s : State Work) : Prop :=
  NoDup (map id (created s))
  /\ Forall (drawn_before env (built s)) (created s).

End MockApp.

(** ** [App.tsx], the variant that asks the backend *)

Module NetworkApp.
Import Chat.

Record Request : Type := mkRequest {
  url : string;
  method : string;
  headers : list (string * string);
  body : string
}.

(** A [fetch] that has been issued and has not settled. *)
Definition Work : Type := Request.

(** How [await res.json()] ends. *)
Inductive BodyOutcome : Type :=
| JsonRejects (err : Js.Error)
| JsonResolves (data : Js.value).

(** How the exchange ends: [await fetch(...)] throws, or resolves to a
    response with a status and a body.  Between the two [await]s of a
    successful exchange the function touches no state, so both are taken in
    one step. *)
Inductive Outcome : Type :=
| FetchRejects (err : Js.Error)
| FetchResolves (status : N) (json : BodyOutcome).

(** [res.ok]. *)
Definition ok (status : N) : bool := ((200 <=? status) && (status <=? 299))%N.

Definition fetch_request (text : string) : Request :=
  {| url := "http://127.0.0.1:8000/chat/turn";
     method := "POST";
     headers := [("Content-Type", "application/json")];
     body := Js.JSON_stringify_field "message" text |}.

(** The exchange failed, and the text that tells how: the message of the
    exception that [fetch] threw, the digits of a status that is not 2xx. *)
Definition failure (o : Outcome) : option string :=
  match o with
  | FetchRejects err => Some (Js.message err)
  | FetchResolves status _ =>
      if ok status then None else Some (Js.Number_toString status)
  end.

(** [sendToBackend] up to its first [await]. *)
Definition sendToBackend (text : string) (s : State Work) : State Work :=
  spawn (fetch_request text) s.

(** The [try] block after the request, up to the value of [data.reply]. *)
Definition try_block (o : Outcome) : Js.Error + Js.value :=
  match o with
  | FetchRejects err => inl err
  | FetchResolves status json =>
      if negb (ok status) then
        inl (Js.new_Error ("HTTP " ++ Js.Number_toString status))
      else
        match json with
        | JsonRejects err => inl err
        | JsonResolves data => Js.get data "reply"
        end
  end.

(** [`⚠️ Error: ${err.message || err}`]. *)
Definition error_text (err : Js.Error) : string :=
  "⚠️ Error: "
    ++ (if truthy (Js.message err) then Js.message err else Js.Error_toString err).

(** The rest of [sendToBackend] once the exchange has ended. *)
Definition sendToBackend_resume (env : Env) (o : Outcome) (s : State Work)
  : State Work :=
  match try_block o with
  | inr reply =>
      let agentMsg := literal env (built s) agent reply in
      setMessages (fun prev => prev ++ [agentMsg])%list (tick s)
  | inl err =>
      let errorMsg := literal env (built s) agent (Js.Str (error_text err)) in
      setMessages (fun prev => prev ++ [errorMsg])%list (tick s)
  end.

(** The [k]-th request under way settles. *)
Definition settle (env : Env) (k : nat) (o : Outcome) (s : State Work)
  : State Work :=
  match nth_error (pending s) k with
  | None => s
  | Some _ => sendToBackend_resume env o (retire k s)
  end.

Definition handleSend (env : Env) (s : State Work) : State Work :=
  let text := trim (input s) in
  if negb (truthy text) then s
  else
    let userMsg := literal env (built s) user (Js.Str text) in
    let s1 := setMessages (fun prev => prev ++ [userMsg])%list (tick s) in
    let s2 := setInput "" s1 in
    sendToBackend text s2.

Inductive Event : Type :=
| Render
| Change (value : string)
| Submit
| Settle (k : nat) (o : Outcome).

Definition step (env : Env) (s : State Work) (ev : Event) : State Work :=
  match ev with
  | Render => render s
  | Change v => onChange v s
  | Submit => handleSend env s
  | Settle k o => settle env k o s
  end.

Definition run (env : Env) (evs : list Event) : State Work :=
  fold_left (step env) evs (init env).

(** Every message made so far: a reply is made when the exchange ends, and
    is shown at once. *)
Definition created (s : State Work) : list Message := messages s.

Definition distinct_identifiers (env : Env) (s : State Work) : Prop :=
  NoDup (map id (created s))
  /\ Forall (drawn_before env (built s)) (created s).

End NetworkApp.

(** ** [main.tsx]: the theme listener *)

Module Theme.

(** [document.documentElement], as far as the listener touches it: the
    tokens of [classList] and [style.colorScheme]. *)
Record Element : Type := mkElement {
  classList : list string;
  colorScheme : string
}.

(** [DOMTokenList.add] and [DOMTokenList.remove]. *)
Definition classList_add (token : string) (l : list string) : list string :=
  if existsb (String.eqb token) l then l else (l ++ [token])%list.

Definition classList_remove (token : string) (l : list string) : list string :=
  filter (fun t => negb (String.eqb token t)) l.

Definition applyTheme (theme : string) (root : Element) : Element :=
  if String.eqb theme "dark" then
    {| classList := classList_add "dark" (classList root);
       colorScheme := "dark" |}
  else
    {| classList := classList_remove "dark" (classList root);
       colorScheme := "light" |}.

Record StorageEvent : Type := mkStorageEvent {
  key : option string;
  oldValue : option string;
  newValue : option string;
  url : string
}.

(** [x === 'lit'] for a value that is a string or [null]. *)
Definition strict_eq (x : option string) (lit : string) : bool :=
  match x with
  | Some s => String.eqb s lit
  | None => false
  end.

Definition onStorage (e : StorageEvent) (root : Element) : Element :=
  if strict_eq (key e) "theme"
     && (strict_eq (newValue e) "dark" || strict_eq (newValue e) "light")
  then
    match newValue e with
    | Some v => applyTheme v root
    | None => root
    end
  else root.

(** A browser tab: the document element, the number of [onStorage]
    listeners that [ThemeSync] has on [window], and the mounted [App].  A
    reload would start the tab again, with [view] at its initial state. *)
Record Tab (View : Type) : Type := mkTab {
  documentElement : Element;
  listeners : nat;
  view : View
}.
Arguments mkTab {View}.
Arguments documentElement {View}.
Arguments listeners {View}.
Arguments view {View}.

(** The effect of [ThemeSync] and its clean-up. *)
Definition ThemeSync_mount {View} (t : Tab View) : Tab View :=
  {| documentElement := documentElement t;
     listeners := S (listeners t);
     view := view t |}.

Definition ThemeSync_unmount {View} (t : Tab View) : Tab View :=
  {| documentElement := documentElement t;
     listeners := pred (listeners t);
     view := view t |}.

(** The browser delivers a [storage] event to every listener in turn. *)
Definition dispatch_storage {View} (e : StorageEvent) (t : Tab View) : Tab View :=
  {| documentElement := Nat.iter (listeners t) (onStorage e) (documentElement t);
     listeners := listeners t;
     view := view t |}.

Definition is_dark (root : Element) : Prop :=
  In "dark" (classList root) /\ colorScheme root = "dark".

Definition is_light (root : Element) : Prop :=
  ~ In "dark" (classList root) /\ colorScheme root = "light".

End Theme.

(** ** Further vocabulary: case folding, clocks, requests, scrolling *)

Module JsCase.

(** [Canonicalize] on every code unit of a string. *)
Fixpoint canonical (s : string) : string :=
  match s with
  | EmptyString => ""
  | String a r => String (canonicalize a) (canonical r)
  end.


End JsCase.

Module ChatFacts.
Import Chat.

(** A user message as [handleSend] makes it: its text is a string that is
    not empty and that [trim] leaves alone. *)
Definition typed_by_user (m : Message) : Prop :=
  exists t, text m = Js.Str t /\ t <> "" /\ trim t = t.

(** The clock never runs backwards. *)
Definition monotone_clock (env : Env) : Prop :=
  forall i j, i <= j -> (Date_now env i <= Date_now env j)%Z.

(** A request as [sendToBackend] makes it for a text that [handleSend]
    accepts. *)
Definition backend_request (r : NetworkApp.Request) : Prop :=
  exists t, r = NetworkApp.fetch_request t /\ t <> "" /\ trim t = t.

End ChatFacts.

(** ** Scroll-sync, the same in both variants of [App.tsx] *)

Module ScrollSync.
Import Chat.





End ScrollSync.

(** ** A page view to run the code on *)

Module Sample.
Import Chat.

(** Identifiers [id-0], [id-1], ... and a clock that moves on by one
    millisecond per reading. *)
Definition env : Env :=
  {| randomUUID := fun n => "id-" ++ NilEmpty.string_of_uint (Nat.to_uint n);
     Date_now := fun n => (1700000000000 + Z.of_nat n)%Z |}.

(** The user has typed a request and has not sent it yet. *)
Definition mock_draft : State MockApp.Work :=
  onChange "  Generate 8 posters " (init env).

Definition network_draft : State NetworkApp.Work :=
  onChange (" hello" ++ LF) (init env).

(** Only blanks have been typed. *)
Definition mock_blank : State MockApp.Work :=
  onChange ("   " ++ LF) (init env).

Definition network_blank : State NetworkApp.Work :=
  onChange "  " (init env).

(** The request of [network_draft] is under way. *)
Definition network_waiting : State NetworkApp.Work :=
  NetworkApp.handleSend env network_draft.

(** A tab in light mode with [ThemeSync] mounted. *)
Definition tab : Theme.Tab (State MockApp.Work) :=
  Theme.ThemeSync_mount
    {| Theme.documentElement :=
         {| Theme.classList := ["app"]; Theme.colorScheme := "light" |};
       Theme.listeners := 0;
       Theme.view := mock_draft |}.

End Sample.

(** * Properties *)

(** ** Strings *)

Section StringFacts.

Lemma trimStart_cons (a : ascii) (r1 : string) :
  trimStart (String a r1) =
  if ws1 a then trimStart r1 else
    match r1 with
    | String b r2 =>
        if ws2 a b then trimStart r2 else
          match r2 with
          | String c r3 => if ws3 a b c then trimStart r3 else String a r1
          | EmptyString => String a r1
          end
    | EmptyString => String a r1
    end.
Proof. destruct r1 as [|b [|c r3]]; reflexivity. Qed.

Lemma whitespace_only_cons (a : ascii) (r1 : string) :
  whitespace_only (String a r1) =
  if ws1 a then whitespace_only r1 else
    match r1 with
    | String b r2 =>
        if ws2 a b then whitespace_only r2 else
          match r2 with
          | String c r3 => ws3 a b c && whitespace_only r3
          | EmptyString => false
          end
    | EmptyString => false
    end.
Proof. reflexivity. Qed.

Lemma whitespace_only_trimStart (s : string) :
  whitespace_only (trimStart s) = whitespace_only s.
Proof.
  remember (String.length s) as n eqn:Hn.
  revert s Hn.
  induction n as [n IH] using lt_wf_ind.
  intros s Hn.
  destruct s as [|a r1]; [reflexivity|].
  rewrite trimStart_cons, (whitespace_only_cons a r1).
  destruct (ws1 a) eqn:Ha.
  { apply (IH (String.length r1)); [subst n; simpl; lia | reflexivity]. }
  destruct r1 as [|b r2].
  { rewrite whitespace_only_cons, Ha. reflexivity. }
  destruct (ws2 a b) eqn:Hab.
  { apply (IH (String.length r2)); [subst n; simpl; lia | reflexivity]. }
  destruct r2 as [|c r3].
  { rewrite whitespace_only_cons, Ha, Hab. reflexivity. }
  destruct (ws3 a b c) eqn:Habc.
  { apply (IH (String.length r3)); [subst n; simpl; lia | reflexivity]. }
  rewrite whitespace_only_cons, Ha, Hab, Habc. reflexivity.
Qed.

Lemma trimEnd_empty (s : string) :
  trimEnd s = "" <-> whitespace_only s = true.
Proof.
  destruct s as [|a r]; [simpl; tauto|].
  unfold trimEnd; fold trimEnd.
  destruct (whitespace_only (String a r)); split; congruence.
Qed.

(** [trim] leaves nothing exactly of the strings made of white space. *)
Lemma trim_empty_iff (s : string) :
  trim s = "" <-> whitespace_only s = true.
Proof.
  unfold trim. rewrite trimEnd_empty, whitespace_only_trimStart. tauto.
Qed.

Lemma append_nil_r (s : string) : s ++ "" = s.
Proof. induction s; simpl; congruence. Qed.

Lemma append_assoc (a b c : string) : (a ++ b) ++ c = a ++ (b ++ c).
Proof. induction a; simpl; congruence. Qed.


Lemma prefix_append (p s : string) : prefix p (p ++ s) = true.
Proof.
  induction p as [|a p IH]; simpl; [destruct s; reflexivity|].
  destruct (ascii_dec a a); [assumption | congruence].
Qed.

Lemma includes_here (p s : string) : prefix p s = true -> includes p s = true.
Proof. intros H. destruct s; simpl in *; rewrite H; reflexivity. Qed.

Lemma includes_append (p a b : string) : includes p (a ++ p ++ b) = true.
Proof.
  induction a as [|c a IH]; simpl.
  - apply includes_here, prefix_append.
  - rewrite IH. apply orb_true_r.
Qed.

End StringFacts.

(** ** Lines of a string *)

Section Lines.









End Lines.

(** ** The mock reply *)

Section MockReply.
Import MockApp.

Lemma reply_with_plan (text : string) :
  looksLikeBatch text = true ->
  reply text = acknowledgement text ++ LF ++ join_lines ("" :: plan).
Proof. intros E. unfold reply, planLines. rewrite E. reflexivity. Qed.

Lemma reply_without_plan (text : string) :
  looksLikeBatch text = false ->
  reply text = acknowledgement text.
Proof. intros E. unfold reply, planLines. rewrite E. reflexivity. Qed.



(** An input without a line break has no inner line. *)
Lemma inner_lines_single_line (text : string) :
  lines text = [text] -> inner_lines text = [].
Proof. intros E. unfold inner_lines. rewrite E. reflexivity. Qed.





End MockReply.

(** ** The composer *)

Section Composer.
Import Chat.
Variable env : Env.

Lemma mock_handleSend_rejected (s : State MockApp.Work) :
  trim (input s) = "" -> MockApp.handleSend env s = s.
Proof. intros E. unfold MockApp.handleSend. rewrite E. reflexivity. Qed.

Lemma mock_handleSend_accepted (s : State MockApp.Work) :
  trim (input s) <> "" ->
  MockApp.handleSend env s =
  {| messages :=
       (messages s ++ [literal env (built s) user (Js.Str (trim (input s)))])%list;
     input := "";
     pending :=
       (pending s
          ++ [literal env (S (built s)) agent
                (Js.Str (MockApp.reply (trim (input s))))])%list;
     built := S (S (built s)) |}.
Proof.
  intros E. unfold MockApp.handleSend.
  destruct (trim (input s)) eqn:Et; [congruence | reflexivity].
Qed.

Lemma network_handleSend_rejected (s : State NetworkApp.Work) :
  trim (input s) = "" -> NetworkApp.handleSend env s = s.
Proof. intros E. unfold NetworkApp.handleSend. rewrite E. reflexivity. Qed.

Lemma network_handleSend_accepted (s : State NetworkApp.Work) :
  trim (input s) <> "" ->
  NetworkApp.handleSend env s =
  {| messages :=
       (messages s ++ [literal env (built s) user (Js.Str (trim (input s)))])%list;
     input := "";
     pending := (pending s ++ [NetworkApp.fetch_request (trim (input s))])%list;
     built := S (built s) |}.
Proof.
  intros E. unfold NetworkApp.handleSend.
  destruct (trim (input s)) eqn:Et; [congruence | reflexivity].
Qed.

(** C4: a submission whose input is empty or white space only does
    nothing, in the mock and in the network variant: the whole component
    state is as before, so no message is appended, no timer is set and no
    request is sent, no identifier is drawn, and the input field keeps its
    contents. *)
Theorem blank_submission_is_noop
  (sm : State MockApp.Work) (sn : State NetworkApp.Work) :
  whitespace_only (input sm) = true ->
  whitespace_only (input sn) = true ->
  MockApp.handleSend env sm = sm /\ NetworkApp.handleSend env sn = sn.
Proof.
  intros Hm Hn. split.
  - apply mock_handleSend_rejected, trim_empty_iff, Hm.
  - apply network_handleSend_rejected, trim_empty_iff, Hn.
Qed.

End Composer.

(** A submission is refused or accepted; in both cases [handleSend] is
    replaced by its result. *)
Ltac submission s :=
  destruct (string_dec (trim (Chat.input s)) "") as [?Hblank | ?Htext];
  [ rewrite ?mock_handleSend_rejected, ?network_handleSend_rejected
      by assumption
  | rewrite ?mock_handleSend_accepted, ?network_handleSend_accepted
      by assumption ].

(** ** The message store along a page view *)

Section Store.
Import Chat.
Variable env : Env.

Lemma bubbles_app (a b : list Message) :
  bubbles (a ++ b) = (bubbles a ++ bubbles b)%list.
Proof. apply map_app. Qed.

Lemma mock_timeout_fires (st : State MockApp.Work) agentMsg later :
  pending st = (agentMsg :: later)%list ->
  MockApp.timeout st =
  {| messages := (messages st ++ [agentMsg])%list; input := input st;
     pending := later; built := built st |}.
Proof.
  intros E. unfold MockApp.timeout, retire, setMessages. rewrite E. reflexivity.
Qed.

Lemma mock_step_appends (s : State MockApp.Work) (ev : MockApp.Event) :
  messages (MockApp.step env s ev) = messages s
  \/ exists m, messages (MockApp.step env s ev) = (messages s ++ [m])%list.
Proof.
  destruct ev as [|v| |]; simpl.
  - left; reflexivity.
  - left; reflexivity.
  - submission s; [left; reflexivity | right; eexists; reflexivity].
  - destruct (pending s) as [|a later] eqn:E.
    + left. unfold MockApp.timeout. now rewrite E.
    + right. rewrite (mock_timeout_fires s a later E). eexists; reflexivity.
Qed.

(** What [sendToBackend] appends once the exchange has ended. *)
Lemma network_resume_appends (o : NetworkApp.Outcome) (s : State NetworkApp.Work) :
  NetworkApp.sendToBackend_resume env o s =
  {| messages :=
       (messages s
          ++ [literal env (built s) agent
                match NetworkApp.try_block o with
                | inr reply => reply
                | inl err => Js.Str (NetworkApp.error_text err)
                end])%list;
     input := input s; pending := pending s; built := S (built s) |}.
Proof.
  unfold NetworkApp.sendToBackend_resume.
  destruct (NetworkApp.try_block o); reflexivity.
Qed.

Lemma network_settle_pending (st : State NetworkApp.Work) k o request :
  nth_error (pending st) k = Some request ->
  NetworkApp.settle env k o st =
  {| messages :=
       (messages st
          ++ [literal env (built st) agent
                match NetworkApp.try_block o with
                | inr reply => reply
                | inl err => Js.Str (NetworkApp.error_text err)
                end])%list;
     input := input st; pending := remove_nth k (pending st);
     built := S (built st) |}.
Proof.
  intros E. unfold NetworkApp.settle. rewrite E.
  rewrite network_resume_appends. reflexivity.
Qed.

Lemma network_settle_idle (st : State NetworkApp.Work) k o :
  nth_error (pending st) k = None -> NetworkApp.settle env k o st = st.
Proof. intros E. unfold NetworkApp.settle. now rewrite E. Qed.

Lemma network_step_appends (s : State NetworkApp.Work) (ev : NetworkApp.Event) :
  messages (NetworkApp.step env s ev) = messages s
  \/ exists m, messages (NetworkApp.step env s ev) = (messages s ++ [m])%list.
Proof.
  destruct ev as [|v| |k o]; simpl.
  - left; reflexivity.
  - left; reflexivity.
  - submission s; [left; reflexivity | right; eexists; reflexivity].
  - destruct (nth_error (pending s) k) as [request|] eqn:E.
    + right. rewrite (network_settle_pending s k o request E).
      eexists; reflexivity.
    + left. now rewrite network_settle_idle.
Qed.

(** Whatever the steps, the store only grows at its end. *)
Lemma steps_extend {Work Event : Type}
  (step : State Work -> Event -> State Work) :
  (forall s ev, messages (step s ev) = messages s
                \/ exists m, messages (step s ev) = (messages s ++ [m])%list) ->
  forall evs s, exists added,
    messages (fold_left step evs s) = (messages s ++ added)%list.
Proof.
  intros Hstep evs. induction evs as [|ev evs IH]; intros s; simpl.
  - exists []. now rewrite app_nil_r.
  - destruct (IH (step s ev)) as [added Hadded]. rewrite Hadded.
    destruct (Hstep s ev) as [E | [m E]]; rewrite E.
    + exists added. reflexivity.
    + exists (m :: added). now rewrite <- app_assoc.
Qed.

Lemma mock_run_app (evs more : list MockApp.Event) :
  MockApp.run env (evs ++ more)
  = fold_left (MockApp.step env) more (MockApp.run env evs).
Proof. apply fold_left_app. Qed.

Lemma network_run_app (evs more : list NetworkApp.Event) :
  NetworkApp.run env (evs ++ more)
  = fold_left (NetworkApp.step env) more (NetworkApp.run env evs).
Proof. apply fold_left_app. Qed.

Lemma mock_run_extends (evs more : list MockApp.Event) :
  exists added,
    messages (MockApp.run env (evs ++ more))
    = (messages (MockApp.run env evs) ++ added)%list.
Proof.
  rewrite mock_run_app.
  apply (steps_extend (MockApp.step env) mock_step_appends).
Qed.

Lemma network_run_extends (evs more : list NetworkApp.Event) :
  exists added,
    messages (NetworkApp.run env (evs ++ more))
    = (messages (NetworkApp.run env evs) ++ added)%list.
Proof.
  rewrite network_run_app.
  apply (steps_extend (NetworkApp.step env) network_step_appends).
Qed.

Lemma nth_error_extends {A} (l added : list A) (i : nat) (x : A) :
  nth_error l i = Some x -> nth_error (l ++ added) i = Some x.
Proof.
  intros E. rewrite nth_error_app1; [exact E|].
  apply nth_error_Some. congruence.
Qed.

(** C6: each step of either variant leaves the store as it is or puts
    exactly one message at its end; hence, along any page view, an earlier
    store is a prefix of every later one, the bubbles are shown in the order
    the messages came in, and a message, once in the store, stays at its
    place as it is. *)
Theorem store_is_append_only :
  (forall s ev,
      messages (MockApp.step env s ev) = messages s
      \/ exists m, messages (MockApp.step env s ev) = (messages s ++ [m])%list)
  /\ (forall s ev,
      messages (NetworkApp.step env s ev) = messages s
      \/ exists m, messages (NetworkApp.step env s ev) = (messages s ++ [m])%list)
  /\ (forall evs more, exists added,
      messages (MockApp.run env (evs ++ more))
      = (messages (MockApp.run env evs) ++ added)%list
      /\ bubbles (messages (MockApp.run env (evs ++ more)))
         = (bubbles (messages (MockApp.run env evs)) ++ bubbles added)%list)
  /\ (forall evs more, exists added,
      messages (NetworkApp.run env (evs ++ more))
      = (messages (NetworkApp.run env evs) ++ added)%list
      /\ bubbles (messages (NetworkApp.run env (evs ++ more)))
         = (bubbles (messages (NetworkApp.run env evs)) ++ bubbles added)%list)
  /\ (forall evs more i m,
      nth_error (messages (MockApp.run env evs)) i = Some m ->
      nth_error (messages (MockApp.run env (evs ++ more))) i = Some m)
  /\ (forall evs more i m,
      nth_error (messages (NetworkApp.run env evs)) i = Some m ->
      nth_error (messages (NetworkApp.run env (evs ++ more))) i = Some m).
Proof.
  split; [exact mock_step_appends|].
  split; [exact network_step_appends|].
  split; [|split; [|split]].
  - intros evs more. destruct (mock_run_extends evs more) as [added E].
    exists added. rewrite E. split; [reflexivity | apply bubbles_app].
  - intros evs more. destruct (network_run_extends evs more) as [added E].
    exists added. rewrite E. split; [reflexivity | apply bubbles_app].
  - intros evs more i m Hi. destruct (mock_run_extends evs more) as [added E].
    rewrite E. now apply nth_error_extends.
  - intros evs more i m Hi. destruct (network_run_extends evs more) as [added E].
    rewrite E. now apply nth_error_extends.
Qed.

(** C9: the store starts as the one greeting of the agent, and in every
    state of a page view, of either variant, the store is not empty and its
    first message is that greeting, whose role is [agent]. *)
Theorem greeting_is_first :
  messages (@init MockApp.Work env) = [literal env 0 agent (Js.Str greeting)]
  /\ messages (@init NetworkApp.Work env) = [literal env 0 agent (Js.Str greeting)]
  /\ (forall evs, exists first rest,
        messages (MockApp.run env evs) = (first :: rest)%list
        /\ role first = agent /\ text first = Js.Str greeting)
  /\ (forall evs, exists first rest,
        messages (NetworkApp.run env evs) = (first :: rest)%list
        /\ role first = agent /\ text first = Js.Str greeting).
Proof.
  split; [reflexivity|]. split; [reflexivity|].
  split; intros evs.
  - destruct (steps_extend (MockApp.step env) mock_step_appends evs (init env))
      as [added E].
    exists (literal env 0 agent (Js.Str greeting)), added.
    unfold MockApp.run. rewrite E. repeat split.
  - destruct (steps_extend (NetworkApp.step env) network_step_appends evs
                (init env)) as [added E].
    exists (literal env 0 agent (Js.Str greeting)), added.
    unfold NetworkApp.run. rewrite E. repeat split.
Qed.

End Store.

(** ** Identifiers *)

Section Identifiers.
Import Chat.
Variable env : Env.

Lemma fold_left_invariant {S E : Type} (step : S -> E -> S) (J : S -> Prop) :
  (forall s ev, J s -> J (step s ev)) ->
  forall evs s, J s -> J (fold_left step evs s).
Proof.
  intros Hstep evs. induction evs as [|ev evs IH]; intros s Hs; simpl.
  - exact Hs.
  - apply IH, Hstep, Hs.
Qed.

Lemma drawn_before_mono (n n' : nat) (m : Message) :
  n <= n' -> drawn_before env n m -> drawn_before env n' m.
Proof. intros Hle [k [Hk E]]. exists k. split; [lia | exact E]. Qed.

Lemma drawn_before_all_mono (n n' : nat) (l : list Message) :
  n <= n' -> Forall (drawn_before env n) l -> Forall (drawn_before env n') l.
Proof.
  intros Hle. apply Forall_impl. intros m. now apply drawn_before_mono.
Qed.

Lemma literal_drawn (n n' : nat) r t :
  n < n' -> drawn_before env n' (literal env n r t).
Proof. intros Hlt. exists n. split; [exact Hlt | reflexivity]. Qed.

Hypothesis fresh : fresh_identifiers env.

(** An identifier drawn now is none of those drawn before. *)
Lemma next_identifier_new (n n' : nat) (l : list Message) :
  Forall (drawn_before env n) l -> n <= n' ->
  ~ In (randomUUID env n') (map id l).
Proof.
  intros Hall Hle Hin. apply in_map_iff in Hin as [m [E Hm]].
  rewrite Forall_forall in Hall. destruct (Hall m Hm) as [k [Hk Ek]].
  rewrite Ek in E. apply fresh in E. lia.
Qed.

Lemma distinct_snoc (l : list Message) (n : nat) r t :
  NoDup (map id l) -> Forall (drawn_before env n) l ->
  NoDup (map id (l ++ [literal env n r t])).
Proof.
  intros Hnd Hall. rewrite map_app. simpl.
  apply (Permutation_NoDup
           (Permutation_cons_append _ _)).
  constructor; [|exact Hnd].
  now apply (next_identifier_new n n l).
Qed.

Lemma mock_init_distinct : MockApp.distinct_identifiers env (init env).
Proof.
  split; simpl.
  - constructor; [simpl; tauto | constructor].
  - constructor; [apply literal_drawn; lia | constructor].
Qed.

Lemma network_init_distinct : NetworkApp.distinct_identifiers env (init env).
Proof.
  split; simpl.
  - constructor; [simpl; tauto | constructor].
  - constructor; [apply literal_drawn; lia | constructor].
Qed.

Lemma mock_step_distinct (s : State MockApp.Work) (ev : MockApp.Event) :
  MockApp.distinct_identifiers env s ->
  MockApp.distinct_identifiers env (MockApp.step env s ev).
Proof.
  unfold MockApp.distinct_identifiers, MockApp.created.
  intros [Hnd Hall]. destruct ev as [|v| |]; simpl.
  - split; [exact Hnd|].
    apply (drawn_before_all_mono (built s)); [lia | exact Hall].
  - split; assumption.
  - submission s; [split; assumption|]. simpl.
    set (userMsg := literal env (built s) user _).
    set (agentMsg := literal env (S (built s)) agent _).
    assert (Hperm : Permutation
                      (agentMsg :: userMsg :: messages s ++ pending s)
                      ((messages s ++ [userMsg]) ++ pending s ++ [agentMsg])).
    { rewrite <- app_assoc. simpl.
      etransitivity; [apply perm_swap|].
      etransitivity; [apply perm_skip, Permutation_cons_append|].
      rewrite <- app_assoc. apply Permutation_middle. }
    assert (Hall' : Forall (drawn_before env (S (S (built s))))
                      (agentMsg :: userMsg :: messages s ++ pending s)).
    { constructor; [apply literal_drawn; lia|].
      constructor; [apply literal_drawn; lia|].
      apply (drawn_before_all_mono (built s)); [lia | exact Hall]. }
    split.
    + apply (Permutation_NoDup (Permutation_map id Hperm)). simpl.
      constructor.
      * simpl. intros [E' | Hin].
        -- apply fresh in E'. lia.
        -- now apply (next_identifier_new (built s) (S (built s))
                        (messages s ++ pending s)) in Hin; [|assumption|lia].
      * constructor; [|exact Hnd].
        now apply (next_identifier_new (built s) (built s)).
    + apply (Permutation_Forall Hperm). exact Hall'.
  - destruct (pending s) as [|agentMsg later] eqn:E.
    { unfold MockApp.timeout. rewrite !E. split; assumption. }
    rewrite (mock_timeout_fires s agentMsg later E). simpl.
    rewrite <- app_assoc. simpl. split; assumption.
Qed.

Lemma network_step_distinct (s : State NetworkApp.Work) (ev : NetworkApp.Event) :
  NetworkApp.distinct_identifiers env s ->
  NetworkApp.distinct_identifiers env (NetworkApp.step env s ev).
Proof.
  unfold NetworkApp.distinct_identifiers, NetworkApp.created.
  intros [Hnd Hall].
  assert (Hsnoc : forall r t,
             NoDup (map id (messages s ++ [literal env (built s) r t]))
             /\ Forall (drawn_before env (S (built s)))
                  (messages s ++ [literal env (built s) r t])).
  { intros r t. split; [now apply distinct_snoc|].
    apply Forall_app. split.
    - apply (drawn_before_all_mono (built s)); [lia | exact Hall].
    - constructor; [apply literal_drawn; lia | constructor]. }
  destruct ev as [|v| |k o]; simpl.
  - split; [exact Hnd|].
    apply (drawn_before_all_mono (built s)); [lia | exact Hall].
  - split; assumption.
  - submission s; [split; assumption|]. simpl. apply Hsnoc.
  - destruct (nth_error (pending s) k) as [request|] eqn:E.
    + rewrite (network_settle_pending env s k o request E). simpl. apply Hsnoc.
    + rewrite network_settle_idle by assumption. split; assumption.
Qed.

(** C7: when the generator never repeats an identifier, the identifiers of
    all messages made during a page view are pairwise distinct: the
    greeting, the user messages, the replies and the error messages in the
    store and, in the mock, the replies that timers still hold. *)
Theorem identifiers_are_distinct :
  (forall evs, NoDup (map id (MockApp.created (MockApp.run env evs))))
  /\ (forall evs, NoDup (map id (NetworkApp.created (NetworkApp.run env evs)))).
Proof.
  split; intros evs.
  - apply (fold_left_invariant (MockApp.step env)
             (MockApp.distinct_identifiers env) mock_step_distinct evs).
    apply mock_init_distinct.
  - apply (fold_left_invariant (NetworkApp.step env)
             (NetworkApp.distinct_identifiers env) network_step_distinct evs).
    apply network_init_distinct.
Qed.

End Identifiers.

(** ** Submissions and their replies *)

Section Exchange.
Import Chat.
Variable env : Env.

Lemma by_role_snoc (r : Role) (msgs : list Message) (m : Message) :
  length (by_role r (msgs ++ [m]))
  = length (by_role r msgs)
    + match r, role m with
      | user, user | agent, agent => 1
      | _, _ => 0
      end.
Proof.
  unfold by_role. rewrite filter_app, length_app. simpl.
  destruct r, (role m); reflexivity.
Qed.

(** One reply for each submission, along any page view of the mock; the
    replies that timers hold have role [agent]. *)
Lemma mock_replies_accounted (evs : list MockApp.Event) :
  replies_accounted (MockApp.run env evs)
  /\ Forall (fun m => role m = agent) (pending (MockApp.run env evs)).
Proof.
  unfold MockApp.run.
  apply (fold_left_invariant (MockApp.step env)
           (fun s => replies_accounted s
                     /\ Forall (fun m => role m = agent) (pending s))).
  - unfold replies_accounted.
    intros s ev [Hc Hp]. destruct ev as [|v| |]; simpl.
    + split; assumption.
    + split; assumption.
    + submission s; [split; assumption|]. simpl.
      rewrite !by_role_snoc, length_app. simpl. split; [lia|].
      apply Forall_app. split; [exact Hp|].
      constructor; [reflexivity | constructor].
    + destruct (pending s) as [|a later] eqn:E.
      { unfold MockApp.timeout. rewrite !E. split; assumption. }
      rewrite (mock_timeout_fires s a later E). simpl.
      inversion Hp as [|? ? Ha Hlater]; subst.
      rewrite !by_role_snoc, Ha. simpl in Hc. split; [lia | exact Hlater].
  - split; [reflexivity | constructor].
Qed.

Lemma length_remove_nth {A} (k : nat) (l : list A) (x : A) :
  nth_error l k = Some x -> S (length (remove_nth k l)) = length l.
Proof.
  revert k. induction l as [|y l IH]; intros [|k]; simpl; try discriminate.
  - reflexivity.
  - intros E. now rewrite (IH k E).
Qed.

(** The same along any page view of the network variant. *)
Lemma network_replies_accounted (evs : list NetworkApp.Event) :
  replies_accounted (NetworkApp.run env evs).
Proof.
  unfold NetworkApp.run.
  apply (fold_left_invariant (NetworkApp.step env) replies_accounted).
  - unfold replies_accounted.
    intros s ev Hc. destruct ev as [|v| |k o]; simpl.
    + assumption.
    + assumption.
    + submission s; [assumption|]. simpl.
      rewrite !by_role_snoc, length_app. simpl. lia.
    + destruct (nth_error (pending s) k) as [request|] eqn:E.
      * rewrite (network_settle_pending env s k o request E). simpl.
        rewrite !by_role_snoc. simpl.
        pose proof (length_remove_nth k (pending s) request E). lia.
      * now rewrite network_settle_idle.
  - reflexivity.
Qed.

(** C1: a submission whose input is not empty after trimming appends
    exactly one user message, carrying the trimmed text, at once and clears
    the input field; it leaves exactly one reply under way (a timer in the
    mock, a request in the network variant), and when that one ends,
    however it ends, exactly one message of role [agent] is appended (the
    reply, or the error message) and the work is gone from the pending
    list.  Along any page view, then, the user messages are as many as the
    agent messages after the greeting plus the replies under way. *)
Theorem accepted_submission_user_then_reply
  (sm : State MockApp.Work) (sn : State NetworkApp.Work) :
  trim (input sm) <> "" ->
  trim (input sn) <> "" ->
  (exists userMsg agentMsg,
      role userMsg = user /\ text userMsg = Js.Str (trim (input sm))
      /\ role agentMsg = agent
      /\ messages (MockApp.handleSend env sm) = (messages sm ++ [userMsg])%list
      /\ input (MockApp.handleSend env sm) = ""
      /\ pending (MockApp.handleSend env sm) = (pending sm ++ [agentMsg])%list
      /\ forall (st : State MockApp.Work) later,
           pending st = (agentMsg :: later)%list ->
           messages (MockApp.timeout st) = (messages st ++ [agentMsg])%list
           /\ pending (MockApp.timeout st) = later)
  /\
  (exists userMsg request,
      role userMsg = user /\ text userMsg = Js.Str (trim (input sn))
      /\ messages (NetworkApp.handleSend env sn) = (messages sn ++ [userMsg])%list
      /\ input (NetworkApp.handleSend env sn) = ""
      /\ pending (NetworkApp.handleSend env sn) = (pending sn ++ [request])%list
      /\ forall (st : State NetworkApp.Work) k o,
           nth_error (pending st) k = Some request ->
           exists replyMsg,
             role replyMsg = agent
             /\ messages (NetworkApp.settle env k o st)
                = (messages st ++ [replyMsg])%list
             /\ pending (NetworkApp.settle env k o st)
                = remove_nth k (pending st))
  /\ (forall evs, replies_accounted (MockApp.run env evs))
  /\ (forall evs, replies_accounted (NetworkApp.run env evs)).
Proof.
  intros Hm Hn.
  split; [|split; [|split;
    [intros evs; apply mock_replies_accounted
    |intros evs; apply network_replies_accounted]]].
  - rewrite (mock_handleSend_accepted env sm Hm). simpl.
    exists (literal env (built sm) user (Js.Str (trim (input sm)))),
      (literal env (S (built sm)) agent
         (Js.Str (MockApp.reply (trim (input sm))))).
    do 6 (split; [reflexivity|]).
    intros st later E. rewrite (mock_timeout_fires st _ later E).
    split; reflexivity.
  - rewrite (network_handleSend_accepted env sn Hn). simpl.
    exists (literal env (built sn) user (Js.Str (trim (input sn)))),
      (NetworkApp.fetch_request (trim (input sn))).
    do 5 (split; [reflexivity|]).
    intros st k o E. rewrite (network_settle_pending env st k o _ E). simpl.
    eexists (literal env (built st) agent _).
    split; [reflexivity|]. split; reflexivity.
Qed.

End Exchange.

(** ** The request body *)

Section Json.

(** A quoted string reads back as itself, up to its closing quote. *)
Lemma unquote_quote_units (s rest : string) :
  Js.unquote_units (Js.quote_units s ++ String (ascii_of_N 34) rest)
  = Some (s, rest).
Proof.
  induction s as [|a s IH].
  - reflexivity.
  - change (Js.quote_units (String a s))
      with (Js.quote_unit a ++ Js.quote_units s).
    rewrite append_assoc. simpl in IH.
    destruct a as [[] [] [] [] [] [] [] []];
      simpl; rewrite IH; reflexivity.
Qed.

(** What the request carries reads back as the one field it was made of. *)
Lemma parse_stringify_field (key s : string) :
  Js.JSON_parse_field (Js.JSON_stringify_field key s) = Some (key, s).
Proof.
  unfold Js.JSON_stringify_field, Js.quote.
  rewrite !append_assoc. simpl.
  rewrite unquote_quote_units. simpl.
  rewrite unquote_quote_units. reflexivity.
Qed.

End Json.

(** ** The exchange with the backend *)

Section Backend.
Import Chat.
Variable env : Env.

Lemma includes_empty (s : string) : includes "" s = true.
Proof. apply includes_here. destruct s; reflexivity. Qed.

Lemma includes_suffix (a p : string) : includes p (a ++ p) = true.
Proof.
  rewrite <- (append_nil_r p) at 2. apply includes_append.
Qed.

Lemma error_text_marked (err : Js.Error) :
  prefix "⚠️" (NetworkApp.error_text err) = true.
Proof. reflexivity. Qed.

Lemma try_block_failure (o : NetworkApp.Outcome) (reason : string) :
  NetworkApp.failure o = Some reason ->
  exists err,
    NetworkApp.try_block o = inl err
    /\ includes reason (Js.message err) = true
    /\ (reason = "" \/ truthy (Js.message err) = true).
Proof.
  destruct o as [err | status json]; simpl.
  - intros E. injection E as <-. exists err.
    split; [reflexivity|]. split.
    + apply includes_here. clear. induction (Js.message err) as [|c m IH];
        simpl; [reflexivity|]. destruct (ascii_dec c c); [exact IH|congruence].
    + destruct (Js.message err); [left|right]; reflexivity.
  - destruct (NetworkApp.ok status); [discriminate|].
    intros E. injection E as <-. simpl.
    exists (Js.new_Error ("HTTP " ++ Js.Number_toString status)).
    split; [reflexivity|]. split.
    + apply (includes_suffix "HTTP ").
    + right. reflexivity.
Qed.

(** C3: when the exchange fails (the transport throws, or the status is
    not 2xx), settling it changes the state in one way only: the request is
    no longer under way and no other is issued, and exactly one message of
    role [agent] is appended, whose text starts with the warning sign and
    contains the reason of the failure (the message of the exception, the
    digits of the status). *)
Theorem failed_exchange_appends_error
  (st : State NetworkApp.Work) (k : nat) (request : NetworkApp.Request)
  (o : NetworkApp.Outcome) (reason : string) :
  nth_error (pending st) k = Some request ->
  NetworkApp.failure o = Some reason ->
  exists t,
    NetworkApp.settle env k o st =
    {| messages := (messages st ++ [literal env (built st) agent (Js.Str t)])%list;
       input := input st;
       pending := remove_nth k (pending st);
       built := S (built st) |}
    /\ prefix "⚠️" t = true
    /\ includes reason t = true.
Proof.
  intros Hk Hfail.
  destruct (try_block_failure o reason Hfail) as [err [Htry [Hin Hnonempty]]].
  exists (NetworkApp.error_text err).
  rewrite (network_settle_pending env st k o request Hk), Htry.
  split; [reflexivity|]. split; [apply error_text_marked|].
  destruct Hnonempty as [-> | Htruthy]; [apply includes_empty|].
  unfold NetworkApp.error_text. rewrite Htruthy.
  clear - Hin.
  induction "⚠️ Error: " as [|c m IH]; simpl; [exact Hin|].
  rewrite IH. apply orb_true_r.
Qed.

(** C5: [sendToBackend] issues one request, a POST to the fixed local
    address whose body is the JSON text of [{ message: text }] for the text
    it was given (it reads back as that field), which for an accepted
    submission is the trimmed input, the text of the user message; when the
    exchange ends with a 2xx status and a JSON object as body, exactly one
    message of role [agent] is appended, whose text is the [reply] property
    of that object, and no other request is issued. *)
Theorem backend_exchange_success :
  (forall text s,
      NetworkApp.sendToBackend text s =
      {| messages := messages s; input := input s;
         pending :=
           (pending s
              ++ [ {| NetworkApp.url := "http://127.0.0.1:8000/chat/turn";
                      NetworkApp.method := "POST";
                      NetworkApp.headers := [("Content-Type", "application/json")];
                      NetworkApp.body := Js.JSON_stringify_field "message" text |} ])%list;
         built := built s |})
  /\ (forall s : State NetworkApp.Work,
      trim (input s) <> "" ->
      pending (NetworkApp.handleSend env s)
      = (pending s ++ [NetworkApp.fetch_request (trim (input s))])%list)
  /\ (forall text,
      Js.JSON_parse_field (NetworkApp.body (NetworkApp.fetch_request text))
      = Some ("message", text))
  /\ (forall st k request status props,
      nth_error (pending st) k = Some request ->
      NetworkApp.ok status = true ->
      NetworkApp.settle env k
        (NetworkApp.FetchResolves status (NetworkApp.JsonResolves (Js.Obj props))) st
      = {| messages :=
             (messages st
                ++ [literal env (built st) agent (Js.own_property props "reply")])%list;
           input := input st;
           pending := remove_nth k (pending st);
           built := S (built st) |}).
Proof.
  split; [reflexivity|]. split; [|split].
  - intros s Hs. now rewrite (network_handleSend_accepted env s Hs).
  - intros text. apply parse_stringify_field.
  - intros st k request status props Hk Hok.
    rewrite (network_settle_pending env st k _ request Hk).
    simpl. rewrite Hok. reflexivity.
Qed.

(** A 2xx answer whose body is not JSON, or is [null], ends in the error
    message as well. *)
Lemma unreadable_body_appends_error
  (st : State NetworkApp.Work) (k : nat) (request : NetworkApp.Request)
  (status : N) (json : NetworkApp.BodyOutcome) :
  nth_error (pending st) k = Some request ->
  NetworkApp.ok status = true ->
  (exists err, json = NetworkApp.JsonRejects err)
  \/ json = NetworkApp.JsonResolves Js.Null ->
  exists t,
    messages (NetworkApp.settle env k (NetworkApp.FetchResolves status json) st)
    = (messages st ++ [literal env (built st) agent (Js.Str t)])%list
    /\ prefix "⚠️" t = true.
Proof.
  intros Hk Hok Hjson.
  rewrite (network_settle_pending env st k _ request Hk). simpl. rewrite Hok.
  destruct Hjson as [[err ->] | ->]; simpl; eexists; split; reflexivity.
Qed.

End Backend.

(** ** The theme listener *)

Section ThemeSync.
Import Theme.
Context {View : Type}.

Lemma strict_eq_true (x : option string) (lit : string) :
  strict_eq x lit = true <-> x = Some lit.
Proof.
  destruct x as [s|]; simpl.
  - rewrite String.eqb_eq. split; congruence.
  - split; discriminate.
Qed.

Lemma classList_add_in (token : string) (l : list string) :
  In token (classList_add token l).
Proof.
  unfold classList_add.
  destruct (existsb (String.eqb token) l) eqn:E.
  - apply existsb_exists in E as [t [Hin Ht]].
    apply String.eqb_eq in Ht. now subst t.
  - apply in_or_app. right. left. reflexivity.
Qed.

Lemma classList_remove_out (token : string) (l : list string) :
  ~ In token (classList_remove token l).
Proof.
  unfold classList_remove. intros Hin. apply filter_In in Hin as [_ Hf].
  rewrite String.eqb_refl in Hf. discriminate.
Qed.

Lemma applyTheme_dark (root : Element) : is_dark (applyTheme "dark" root).
Proof. split; [apply classList_add_in | reflexivity]. Qed.

Lemma applyTheme_light (root : Element) : is_light (applyTheme "light" root).
Proof. split; [apply classList_remove_out | reflexivity]. Qed.

Lemma onStorage_ignores (e : StorageEvent) (root : Element) :
  key e <> Some "theme"
  \/ (newValue e <> Some "dark" /\ newValue e <> Some "light") ->
  onStorage e root = root.
Proof.
  intros H. unfold onStorage.
  destruct (strict_eq (key e) "theme") eqn:Ek; [|reflexivity].
  destruct (strict_eq (newValue e) "dark") eqn:Ed.
  { apply strict_eq_true in Ek, Ed. destruct H as [H | [H _]]; contradiction. }
  destruct (strict_eq (newValue e) "light") eqn:El.
  { apply strict_eq_true in Ek, El. destruct H as [H | [_ H]]; contradiction. }
  reflexivity.
Qed.

(** C8: in a tab where [ThemeSync] is mounted, a storage event for the key
    [theme] with the new value [dark] leaves the document element in dark
    mode (the class [dark] and the colour scheme [dark]), and one with the
    new value [light] leaves it in light mode, whatever its state was; the
    mounted [App] is the same as before, as no reload takes place. *)
Theorem theme_event_applies_mode
  (t : Tab View) (old : option string) (from : string) :
  is_dark
    (documentElement
       (dispatch_storage
          {| key := Some "theme"; oldValue := old;
             newValue := Some "dark"; url := from |}
          (ThemeSync_mount t)))
  /\ is_light
       (documentElement
          (dispatch_storage
             {| key := Some "theme"; oldValue := old;
                newValue := Some "light"; url := from |}
             (ThemeSync_mount t)))
  /\ (forall e, view (dispatch_storage e (ThemeSync_mount t)) = view t)
  /\ (forall e, listeners (dispatch_storage e (ThemeSync_mount t))
                = S (listeners t)).
Proof.
  split; [|split; [|split; reflexivity]].
  - apply applyTheme_dark.
  - apply applyTheme_light.
Qed.

(** C10: a storage event for another key, or with a new value that is
    neither [dark] nor [light], leaves the tab as it is, the document
    element included, however many listeners are mounted. *)
Theorem other_storage_event_is_ignored (e : StorageEvent) (t : Tab View) :
  key e <> Some "theme"
  \/ (newValue e <> Some "dark" /\ newValue e <> Some "light") ->
  dispatch_storage e t = t.
Proof.
  intros H. destruct t as [root n v]. unfold dispatch_storage. simpl.
  f_equal. induction n as [|n IH]; simpl; [reflexivity|].
  rewrite IH. now apply onStorage_ignores.
Qed.

End ThemeSync.

(** ** The properties at work on the sample page view *)

Section Witnesses.
Import Chat.

Lemma sample_identifiers_fresh : fresh_identifiers Sample.env.
Proof.
  intros i j E. simpl in E. injection E as E.
  apply (f_equal NilEmpty.uint_of_string) in E.
  rewrite !NilEmpty.usu in E. injection E as E.
  apply (f_equal Nat.of_uint) in E.
  now rewrite !DecimalNat.Unsigned.of_to in E.
Qed.

Lemma mock_plan_line_example :
  lines (MockApp.reply "Generate 8 posters")
  = ("Got it: " ++ Js.DQ ++ "Generate 8 posters" ++ Js.DQ
       ++ ". I can create a batch job or answer questions.")
      :: "" :: MockApp.plan.
Proof. reflexivity. Qed.

Lemma blank_submission_is_noop_witness :
  whitespace_only (input Sample.mock_blank) = true
  /\ whitespace_only (input Sample.network_blank) = true
  /\ MockApp.handleSend Sample.env Sample.mock_blank = Sample.mock_blank
  /\ NetworkApp.handleSend Sample.env Sample.network_blank
     = Sample.network_blank.
Proof.
  split; [reflexivity|]. split; [reflexivity|].
  exact (blank_submission_is_noop Sample.env Sample.mock_blank
           Sample.network_blank eq_refl eq_refl).
Defined.

Lemma sample_drafts_accepted :
  trim (input Sample.mock_draft) <> ""
  /\ trim (input Sample.network_draft) <> "".
Proof. split; vm_compute; discriminate. Qed.

Lemma accepted_submission_user_then_reply_witness :
  trim (input Sample.mock_draft) <> ""
  /\ trim (input Sample.network_draft) <> ""
  /\ (exists userMsg agentMsg,
        role userMsg = user /\ role agentMsg = agent
        /\ messages (MockApp.timeout (MockApp.handleSend Sample.env Sample.mock_draft))
           = (messages Sample.mock_draft ++ [userMsg] ++ [agentMsg])%list)
  /\ (exists userMsg replyMsg,
        role userMsg = user /\ role replyMsg = agent
        /\ messages
             (NetworkApp.settle Sample.env 0
                (NetworkApp.FetchRejects (Js.mkError "TypeError" "Failed to fetch"))
                (NetworkApp.handleSend Sample.env Sample.network_draft))
           = (messages Sample.network_draft ++ [userMsg] ++ [replyMsg])%list).
Proof.
  destruct sample_drafts_accepted as [Hm Hn].
  split; [exact Hm|]. split; [exact Hn|].
  destruct (accepted_submission_user_then_reply Sample.env Sample.mock_draft
              Sample.network_draft Hm Hn)
    as [[u [a [Hu [_ [Ha [Hmsgs [_ [Hpend Hfire]]]]]]]]
          [[u' [request [Hu' [_ [Hmsgs' [_ [Hpend' Hsettle]]]]]]] _]].
  split.
  - exists u, a. split; [exact Hu|]. split; [exact Ha|].
    destruct (Hfire (MockApp.handleSend Sample.env Sample.mock_draft) []
                Hpend) as [E _].
    rewrite E, Hmsgs, <- app_assoc. reflexivity.
  - destruct (Hsettle (NetworkApp.handleSend Sample.env Sample.network_draft) 0
                (NetworkApp.FetchRejects (Js.mkError "TypeError" "Failed to fetch")))
      as [r [Hr [E _]]].
    { rewrite Hpend'. reflexivity. }
    exists u', r. split; [exact Hu'|]. split; [exact Hr|].
    rewrite E, Hmsgs', <- app_assoc. reflexivity.
Defined.

Lemma failed_exchange_appends_error_witness :
  nth_error (pending Sample.network_waiting) 0
  = Some (NetworkApp.fetch_request "hello")
  /\ NetworkApp.failure
       (NetworkApp.FetchResolves 503
          (NetworkApp.JsonResolves (Js.Obj [("reply", Js.Str "late")])))
     = Some "503"
  /\ exists t,
       NetworkApp.settle Sample.env 0
         (NetworkApp.FetchResolves 503
            (NetworkApp.JsonResolves (Js.Obj [("reply", Js.Str "late")])))
         Sample.network_waiting
       = {| messages :=
              (messages Sample.network_waiting
                 ++ [literal Sample.env (built Sample.network_waiting) agent
                       (Js.Str t)])%list;
            input := input Sample.network_waiting;
            pending := remove_nth 0 (pending Sample.network_waiting);
            built := S (built Sample.network_waiting) |}
       /\ prefix "⚠️" t = true
       /\ includes "503" t = true.
Proof.
  split; [reflexivity|]. split; [reflexivity|].
  exact (failed_exchange_appends_error Sample.env Sample.network_waiting 0
           (NetworkApp.fetch_request "hello")
           (NetworkApp.FetchResolves 503
              (NetworkApp.JsonResolves (Js.Obj [("reply", Js.Str "late")])))
           "503" eq_refl eq_refl).
Defined.

Lemma backend_exchange_success_witness :
  nth_error (pending Sample.network_waiting) 0
  = Some (NetworkApp.fetch_request "hello")
  /\ NetworkApp.ok 200 = true
  /\ NetworkApp.body (NetworkApp.fetch_request "hello")
     = "{" ++ Js.DQ ++ "message" ++ Js.DQ ++ ":" ++ Js.DQ ++ "hello" ++ Js.DQ ++ "}"
  /\ NetworkApp.settle Sample.env 0
       (NetworkApp.FetchResolves 200
          (NetworkApp.JsonResolves (Js.Obj [("reply", Js.Str "Hi there")])))
       Sample.network_waiting
     = {| messages :=
            (messages Sample.network_waiting
               ++ [literal Sample.env 2 agent (Js.Str "Hi there")])%list;
          input := "";
          pending := [];
          built := 3 |}.
Proof.
  split; [reflexivity|]. split; [reflexivity|]. split; [reflexivity|].
  exact (proj2 (proj2 (proj2 (backend_exchange_success Sample.env)))
           Sample.network_waiting 0 (NetworkApp.fetch_request "hello") 200%N
           [("reply", Js.Str "Hi there")] eq_refl eq_refl).
Defined.

Lemma store_is_append_only_witness :
  nth_error (messages (MockApp.run Sample.env [MockApp.Change "hi"; MockApp.Submit])) 1
  = Some (literal Sample.env 1 user (Js.Str "hi"))
  /\ nth_error
       (messages
          (MockApp.run Sample.env
             ([MockApp.Change "hi"; MockApp.Submit]
                ++ [MockApp.Timeout; MockApp.Change "make a poster";
                    MockApp.Submit; MockApp.Timeout])))
       1
     = Some (literal Sample.env 1 user (Js.Str "hi")).
Proof.
  split; [reflexivity|].
  exact (proj1 (proj2 (proj2 (proj2 (proj2 (store_is_append_only Sample.env)))))
           [MockApp.Change "hi"; MockApp.Submit]
           [MockApp.Timeout; MockApp.Change "make a poster";
            MockApp.Submit; MockApp.Timeout]
           1 (literal Sample.env 1 user (Js.Str "hi")) eq_refl).
Defined.

Lemma identifiers_are_distinct_witness :
  fresh_identifiers Sample.env
  /\ NoDup
       (map id
          (MockApp.created
             (MockApp.run Sample.env
                [MockApp.Change "make a poster"; MockApp.Submit; MockApp.Render;
                 MockApp.Change "and a promo"; MockApp.Submit; MockApp.Timeout])))
  /\ NoDup
       (map id
          (NetworkApp.created
             (NetworkApp.run Sample.env
                [NetworkApp.Change "hello"; NetworkApp.Submit;
                 NetworkApp.Settle 0
                   (NetworkApp.FetchResolves 404
                      (NetworkApp.JsonRejects (Js.mkError "SyntaxError" "")))]))).
Proof.
  split; [exact sample_identifiers_fresh|].
  split;
    apply (identifiers_are_distinct Sample.env sample_identifiers_fresh).
Defined.

Lemma other_storage_event_is_ignored_witness :
  Theme.key (Theme.mkStorageEvent (Some "theme") (Some "light") (Some "Dark")
               "http://localhost:5173/")
  = Some "theme"
  /\ Theme.dispatch_storage
       (Theme.mkStorageEvent (Some "theme") (Some "light") (Some "Dark")
          "http://localhost:5173/")
       Sample.tab
     = Sample.tab
  /\ Theme.dispatch_storage
       (Theme.mkStorageEvent (Some "font") None (Some "dark")
          "http://localhost:5173/")
       Sample.tab
     = Sample.tab.
Proof.
  split; [reflexivity|]. split.
  - apply other_storage_event_is_ignored. right. split; discriminate.
  - apply other_storage_event_is_ignored. left. discriminate.
Defined.

End Witnesses.

(** * Further properties of the code *)

(** ** What [trim] removes and what it keeps *)

Section Trim.

Lemma length_trimStart (s : string) :
  String.length (trimStart s) <= String.length s.
Proof.
  remember (String.length s) as n eqn:Hn.
  revert s Hn. induction n as [n IH] using lt_wf_ind. intros s Hn.
  destruct s as [|a r1]; [simpl; lia|].
  rewrite trimStart_cons. simpl in Hn.
  destruct (ws1 a).
  { specialize (IH (String.length r1) ltac:(lia) r1 eq_refl). lia. }
  destruct r1 as [|b r2]; [simpl; lia|]. simpl in Hn.
  destruct (ws2 a b).
  { specialize (IH (String.length r2) ltac:(lia) r2 eq_refl). lia. }
  destruct r2 as [|c r3]; [simpl; lia|]. simpl in Hn.
  destruct (ws3 a b c); [|simpl; lia].
  specialize (IH (String.length r3) ltac:(lia) r3 eq_refl). lia.
Qed.

(** [trimStart] cuts a prefix made of white space. *)
Lemma trimStart_cuts (s : string) :
  exists pre, s = pre ++ trimStart s /\ whitespace_only pre = true.
Proof.
  remember (String.length s) as n eqn:Hn.
  revert s Hn. induction n as [n IH] using lt_wf_ind. intros s Hn.
  destruct s as [|a r1]; [exists ""; split; reflexivity|].
  rewrite trimStart_cons. simpl in Hn.
  destruct (ws1 a) eqn:Ha.
  { destruct (IH (String.length r1) ltac:(lia) r1 eq_refl) as [pre [E W]].
    exists (String a pre). split; [simpl; congruence|].
    rewrite whitespace_only_cons, Ha. exact W. }
  destruct r1 as [|b r2]; [exists ""; split; reflexivity|]. simpl in Hn.
  destruct (ws2 a b) eqn:Hab.
  { destruct (IH (String.length r2) ltac:(lia) r2 eq_refl) as [pre [E W]].
    exists (String a (String b pre)). split; [simpl; congruence|].
    rewrite whitespace_only_cons, Ha, Hab. exact W. }
  destruct r2 as [|c r3]; [exists ""; split; reflexivity|]. simpl in Hn.
  destruct (ws3 a b c) eqn:Habc; [|exists ""; split; reflexivity].
  destruct (IH (String.length r3) ltac:(lia) r3 eq_refl) as [pre [E W]].
  exists (String a (String b (String c pre))). split; [simpl; congruence|].
  rewrite whitespace_only_cons, Ha, Hab, Habc. exact W.
Qed.

(** [trimEnd] cuts a suffix made of white space. *)
Lemma trimEnd_cuts (s : string) :
  exists post, s = trimEnd s ++ post /\ whitespace_only post = true.
Proof.
  induction s as [|a r IH]; [exists ""; split; reflexivity|].
  unfold trimEnd; fold trimEnd.
  destruct (whitespace_only (String a r)) eqn:W.
  - exists (String a r). split; [reflexivity | exact W].
  - destruct IH as [post [E Wp]]. exists post.
    split; [simpl; congruence | exact Wp].
Qed.

Lemma whitespace_only_app (a b : string) :
  whitespace_only a = true ->
  whitespace_only (a ++ b) = whitespace_only b.
Proof.
  remember (String.length a) as n eqn:Hn.
  revert a Hn. induction n as [n IH] using lt_wf_ind. intros s Hn W.
  destruct s as [|x r1]; [reflexivity|].
  simpl String.append. rewrite whitespace_only_cons in W |- *. simpl in Hn.
  destruct (ws1 x).
  { apply (IH (String.length r1)); [lia | reflexivity | exact W]. }
  destruct r1 as [|y r2]; [discriminate|]. simpl in Hn |- *.
  destruct (ws2 x y).
  { apply (IH (String.length r2)); [lia | reflexivity | exact W]. }
  destruct r2 as [|z r3]; [discriminate|]. simpl in Hn |- *.
  apply andb_true_iff in W as [-> W]. simpl.
  apply (IH (String.length r3)); [lia | reflexivity | exact W].
Qed.

Lemma trimEnd_not_blank (s : string) :
  whitespace_only s = false -> whitespace_only (trimEnd s) = false.
Proof.
  intros W. destruct (whitespace_only (trimEnd s)) eqn:Wt; [|reflexivity].
  destruct (trimEnd_cuts s) as [post [E Wp]].
  rewrite E, (whitespace_only_app _ _ Wt), Wp in W. discriminate.
Qed.

Lemma trimEnd_idempotent (s : string) : trimEnd (trimEnd s) = trimEnd s.
Proof.
  induction s as [|a r IH]; [reflexivity|].
  unfold trimEnd at 2 3; fold trimEnd.
  destruct (whitespace_only (String a r)) eqn:W; [reflexivity|].
  pose proof (trimEnd_not_blank _ W) as W'.
  unfold trimEnd in W' at 1; fold trimEnd in W'. rewrite W in W'.
  unfold trimEnd at 1; fold trimEnd. rewrite W', IH. reflexivity.
Qed.

Lemma trimStart_idempotent (s : string) : trimStart (trimStart s) = trimStart s.
Proof.
  remember (String.length s) as n eqn:Hn.
  revert s Hn. induction n as [n IH] using lt_wf_ind. intros s Hn.
  destruct s as [|a r1]; [reflexivity|].
  rewrite (trimStart_cons a r1). simpl in Hn.
  destruct (ws1 a) eqn:Ha.
  { apply (IH (String.length r1)); [lia | reflexivity]. }
  destruct r1 as [|b r2].
  { rewrite trimStart_cons, Ha. reflexivity. }
  simpl in Hn. destruct (ws2 a b) eqn:Hab.
  { apply (IH (String.length r2)); [lia | reflexivity]. }
  destruct r2 as [|c r3].
  { rewrite trimStart_cons, Ha, Hab. reflexivity. }
  simpl in Hn. destruct (ws3 a b c) eqn:Habc.
  { apply (IH (String.length r3)); [lia | reflexivity]. }
  rewrite trimStart_cons, Ha, Hab, Habc. reflexivity.
Qed.

(** Cutting at the end does not uncover white space at the start. *)
Lemma trimStart_trimEnd (s : string) :
  trimStart s = s -> trimStart (trimEnd s) = trimEnd s.
Proof.
  intros Hfix.
  destruct s as [|a r1]; [reflexivity|].
  rewrite trimStart_cons in Hfix.
  destruct (ws1 a) eqn:Ha.
  { pose proof (length_trimStart r1) as L. rewrite Hfix in L. simpl in L. lia. }
  unfold trimEnd; fold trimEnd.
  destruct (whitespace_only (String a r1)); [reflexivity|].
  rewrite trimStart_cons, Ha.
  destruct r1 as [|b r2]; [reflexivity|].
  destruct (ws2 a b) eqn:Hab.
  { pose proof (length_trimStart r2) as L. rewrite Hfix in L. simpl in L. lia. }
  unfold trimEnd; fold trimEnd.
  destruct (whitespace_only (String b r2)); [reflexivity|].
  rewrite Hab.
  destruct r2 as [|c r3]; [reflexivity|].
  destruct (ws3 a b c) eqn:Habc.
  { pose proof (length_trimStart r3) as L. rewrite Hfix in L. simpl in L. lia. }
  unfold trimEnd; fold trimEnd.
  destruct (whitespace_only (String c r3)); [reflexivity|].
  rewrite Habc. reflexivity.
Qed.

Lemma trim_idempotent (s : string) : trim (trim s) = trim s.
Proof.
  unfold trim.
  rewrite (trimStart_trimEnd (trimStart s) (trimStart_idempotent s)).
  apply trimEnd_idempotent.
Qed.

Lemma trim_cuts (s : string) :
  exists pre post,
    s = pre ++ trim s ++ post
    /\ whitespace_only pre = true /\ whitespace_only post = true.
Proof.
  destruct (trimStart_cuts s) as [pre [Es Wpre]].
  destruct (trimEnd_cuts (trimStart s)) as [post [Et Wpost]].
  exists pre, post. unfold trim. rewrite <- Et. repeat split; assumption.
Qed.

End Trim.

(** ** What the composer stores and sends *)

Section Submissions.
Import Chat ChatFacts.
Variable env : Env.

Lemma by_role_app (r : Role) (a b : list Message) :
  by_role r (a ++ b) = (by_role r a ++ by_role r b)%list.
Proof. apply filter_app. Qed.

Lemma literal_typed_by_user (n : nat) (s : string) :
  trim s <> "" -> typed_by_user (literal env n user (Js.Str (trim s))).
Proof.
  intros Hs. exists (trim s).
  split; [reflexivity|]. split; [exact Hs | apply trim_idempotent].
Qed.

Lemma by_role_user_agent (m : Message) :
  role m = agent -> by_role user [m] = [].
Proof. intros E. unfold by_role. simpl. now rewrite E. Qed.

Lemma mock_user_messages_trimmed (evs : list MockApp.Event) :
  Forall typed_by_user (by_role user (messages (MockApp.run env evs)))
  /\ Forall (fun m => role m = agent) (pending (MockApp.run env evs)).
Proof.
  unfold MockApp.run.
  apply (fold_left_invariant (MockApp.step env)
           (fun s => Forall typed_by_user (by_role user (messages s))
                     /\ Forall (fun m => role m = agent) (pending s))).
  - intros s ev [H Hp]. destruct ev as [|v| |]; simpl.
    + split; assumption.
    + split; assumption.
    + submission s; [split; assumption|]. simpl. split.
      * rewrite by_role_app. apply Forall_app. split; [exact H|].
        constructor; [now apply literal_typed_by_user | constructor].
      * apply Forall_app. split; [exact Hp|].
        constructor; [reflexivity | constructor].
    + destruct (pending s) as [|a later] eqn:E.
      { unfold MockApp.timeout. rewrite !E. split; assumption. }
      rewrite (mock_timeout_fires s a later E). simpl.
      inversion Hp as [|? ? Ha Hlater]; subst. split; [|exact Hlater].
      rewrite by_role_app.
      unfold MockApp.Work in *.
      rewrite (by_role_user_agent a Ha), app_nil_r. exact H.
  - split; constructor.
Qed.

Lemma network_user_messages_trimmed (evs : list NetworkApp.Event) :
  Forall typed_by_user (by_role user (messages (NetworkApp.run env evs))).
Proof.
  unfold NetworkApp.run.
  apply (fold_left_invariant (NetworkApp.step env)
           (fun s => Forall typed_by_user (by_role user (messages s)))).
  - intros s ev H. destruct ev as [|v| |k o]; simpl.
    + exact H.
    + exact H.
    + submission s; [exact H|]. simpl.
      rewrite by_role_app. apply Forall_app. split; [exact H|].
      constructor; [now apply literal_typed_by_user | constructor].
    + destruct (nth_error (pending s) k) as [request|] eqn:E.
      * rewrite (network_settle_pending env s k o request E). simpl.
        rewrite by_role_app, by_role_user_agent, app_nil_r; [exact H|].
        reflexivity.
      * now rewrite network_settle_idle.
  - constructor.
Qed.

(** X1: along any page view of either variant, every user message in the
    store carries a string that is not empty and has no white space at
    either end ([trim] leaves it as it is). *)
Theorem user_messages_are_trimmed :
  (forall evs,
      Forall typed_by_user (by_role user (messages (MockApp.run env evs))))
  /\ (forall evs,
      Forall typed_by_user (by_role user (messages (NetworkApp.run env evs)))).
Proof.
  split; intros evs.
  - apply mock_user_messages_trimmed.
  - apply network_user_messages_trimmed.
Qed.

(** X2: what an accepted submission stores, and in the network variant
    sends, is the input without the white space around it: the input is
    that text between two runs of white space, and nothing inside it is
    changed. *)
Theorem submission_keeps_the_core
  (sm : State MockApp.Work) (sn : State NetworkApp.Work) :
  trim (input sm) <> "" ->
  trim (input sn) <> "" ->
  (exists pre t post,
      input sm = pre ++ t ++ post
      /\ whitespace_only pre = true /\ whitespace_only post = true
      /\ messages (MockApp.handleSend env sm)
         = (messages sm ++ [literal env (built sm) user (Js.Str t)])%list)
  /\ (exists pre t post,
      input sn = pre ++ t ++ post
      /\ whitespace_only pre = true /\ whitespace_only post = true
      /\ messages (NetworkApp.handleSend env sn)
         = (messages sn ++ [literal env (built sn) user (Js.Str t)])%list
      /\ pending (NetworkApp.handleSend env sn)
         = (pending sn ++ [NetworkApp.fetch_request t])%list).
Proof.
  intros Hm Hn. split.
  - destruct (trim_cuts (input sm)) as [pre [post [E [Wpre Wpost]]]].
    exists pre, (trim (input sm)), post.
    rewrite (mock_handleSend_accepted env sm Hm). simpl.
    repeat split; assumption.
  - destruct (trim_cuts (input sn)) as [pre [post [E [Wpre Wpost]]]].
    exists pre, (trim (input sn)), post.
    rewrite (network_handleSend_accepted env sn Hn). simpl.
    repeat split; assumption.
Qed.


End Submissions.

(** ** The mock: which inputs get a plan, and which reply answers which
    message *)

Section MockFacts.
Import Chat JsCase.
Variable env : Env.

Lemma canonicalize_idempotent (a : ascii) :
  canonicalize (canonicalize a) = canonicalize a.
Proof. destruct a as [[] [] [] [] [] [] [] []]; reflexivity. Qed.

Lemma matches_at_canonical (p s : string) :
  matches_at p (canonical s) = matches_at p s.
Proof.
  revert s. induction p as [|x p IH]; intros [|y s]; simpl; try reflexivity.
  now rewrite canonicalize_idempotent, IH.
Qed.

Lemma some_matches_at_canonical (alternatives : list string) (s : string) :
  existsb (fun p => matches_at p (canonical s)) alternatives
  = existsb (fun p => matches_at p s) alternatives.
Proof.
  induction alternatives as [|p ps IH]; simpl; [reflexivity|].
  now rewrite matches_at_canonical, IH.
Qed.

Lemma regexp_test_canonical (alternatives : list string) (s : string) :
  regexp_test alternatives (canonical s) = regexp_test alternatives s.
Proof.
  induction s as [|y s IH].
  - reflexivity.
  - change (canonical (String y s)) with (String (canonicalize y) (canonical s)).
    change (regexp_test alternatives (String (canonicalize y) (canonical s)))
      with (existsb (fun p => matches_at p (canonical (String y s))) alternatives
            || regexp_test alternatives (canonical s)).
    rewrite IH, some_matches_at_canonical. reflexivity.
Qed.

(** X4: the verdict of the mock looks at letters without regard to case:
    two inputs that are equal after case folding get the plan together or
    not at all. *)
Theorem looksLikeBatch_ignores_case (text1 text2 : string) :
  canonical text1 = canonical text2 ->
  MockApp.looksLikeBatch text1 = MockApp.looksLikeBatch text2.
Proof.
  intros E. unfold MockApp.looksLikeBatch.
  rewrite <- (regexp_test_canonical MockApp.action_keywords text1),
          <- (regexp_test_canonical MockApp.subject_keywords text1), E,
          !regexp_test_canonical.
  reflexivity.
Qed.

Lemma matches_at_iff (p s : string) :
  matches_at p s = true <->
  exists m rest, s = m ++ rest /\ canonical m = canonical p.
Proof.
  revert s. induction p as [|x p IH]; intros s.
  - split; [intros _; exists "", s; split; reflexivity | reflexivity].
  - destruct s as [|y s]; simpl.
    + split; [discriminate|]. intros [[|c m] [rest [E Ec]]]; discriminate.
    + rewrite andb_true_iff, IH. split.
      * intros [Hxy [m [rest [E Ec]]]]. apply Ascii.eqb_eq in Hxy.
        exists (String y m), rest. simpl. split; congruence.
      * intros [[|c m] [rest [E Ec]]]; [discriminate|].
        simpl in E, Ec. injection E as -> ->. injection Ec as Hc Ec.
        split; [apply Ascii.eqb_eq; congruence|]. exists m, rest. now split.
Qed.

(** X5: the keyword test holds exactly of the inputs that contain, at some
    place, a piece that is one of the keywords up to the case of letters. *)
Theorem regexp_test_iff_contains (alternatives : list string) (s : string) :
  regexp_test alternatives s = true <->
  exists p before m rest,
    In p alternatives /\ s = before ++ m ++ rest
    /\ canonical m = canonical p.
Proof.
  induction s as [|y s IH].
  - simpl. rewrite orb_false_r, existsb_exists. split.
    + intros [p [Hp Hm]]. apply matches_at_iff in Hm as [m [rest [E Ec]]].
      exists p, "", m, rest. now repeat split.
    + intros [p [[|c before] [m [rest [Hp [E Ec]]]]]]; [|discriminate].
      exists p. split; [exact Hp|]. apply matches_at_iff. now exists m, rest.
  - simpl regexp_test. rewrite orb_true_iff, existsb_exists, IH. split.
    + intros [[p [Hp Hm]] | [p [before [m [rest [Hp [E Ec]]]]]]].
      * apply matches_at_iff in Hm as [m [rest [E Ec]]].
        exists p, "", m, rest. now repeat split.
      * exists p, (String y before), m, rest. simpl. repeat split; congruence.
    + intros [p [[|c before] [m [rest [Hp [E Ec]]]]]].
      * left. exists p. split; [exact Hp|]. apply matches_at_iff.
        now exists m, rest.
      * right. simpl in E. injection E as -> ->.
        exists p, before, m, rest. now repeat split.
Qed.

Lemma prefix_app_iff (p s : string) :
  prefix p s = true <-> exists rest, s = p ++ rest.
Proof.
  revert s. induction p as [|a p IH]; intros s.
  - split; [intros _; now exists s | destruct s; reflexivity].
  - destruct s as [|b s]; simpl.
    + split; [discriminate | intros [rest E]; discriminate].
    + destruct (ascii_dec a b) as [<-|Hne].
      * rewrite IH. split; intros [rest E]; exists rest; congruence.
      * split; [discriminate | intros [rest E]; congruence].
Qed.

(** X6: whatever the input, the reply of the mock starts with the
    acknowledgement, which quotes the input in full and as it is; the plan,
    when there is one, only follows it. *)
Theorem reply_quotes_the_input (text : string) :
  prefix (MockApp.acknowledgement text) (MockApp.reply text) = true
  /\ prefix ("Got it: " ++ Js.DQ ++ text ++ Js.DQ) (MockApp.reply text) = true
  /\ includes text (MockApp.reply text) = true.
Proof.
  assert (H : exists rest,
             MockApp.reply text = MockApp.acknowledgement text ++ rest).
  { destruct (MockApp.looksLikeBatch text) eqn:E.
    - rewrite (reply_with_plan text E). eexists; reflexivity.
    - rewrite (reply_without_plan text E). exists "". now rewrite append_nil_r. }
  destruct H as [rest E]. rewrite E.
  split; [apply prefix_append|]. split.
  - apply prefix_app_iff. unfold MockApp.acknowledgement.
    eexists. rewrite !append_assoc. reflexivity.
  - unfold MockApp.acknowledgement.
    change ("Got it: " ++ Js.DQ ++ text
              ++ Js.DQ ++ ". I can create a batch job or answer questions.")
      with (("Got it: " ++ Js.DQ) ++ text
              ++ Js.DQ ++ ". I can create a batch job or answer questions.").
    rewrite !append_assoc. rewrite <- (append_assoc "Got it: " Js.DQ).
    apply includes_append.
Qed.

End MockFacts.

Section MockReplies.
Import Chat.
Variable env : Env.

Lemma by_role_agent_user (m : Message) :
  role m = user -> by_role agent [m] = [].
Proof. intros E. unfold by_role. simpl. now rewrite E. Qed.

Lemma by_role_agent_agent (m : Message) :
  role m = agent -> by_role agent [m] = [m].
Proof. intros E. unfold by_role. simpl. now rewrite E. Qed.

Lemma by_role_user_user (m : Message) :
  role m = user -> by_role user [m] = [m].
Proof. intros E. unfold by_role. simpl. now rewrite E. Qed.

(** X7: in the mock, replies come in the order of the submissions and each
    answers its own message: along any page view, the texts of the user
    messages are strings [t1, t2, ...], and the agent messages in the store
    followed by the replies that timers still hold are the greeting and then
    the replies to [t1], [t2], ... in that order. *)
Theorem mock_replies_in_order (evs : list MockApp.Event) :
  exists texts : list string,
    map text (by_role user (messages (MockApp.run env evs)))
    = map Js.Str texts
    /\ map text (by_role agent (messages (MockApp.run env evs))
                   ++ pending (MockApp.run env evs))
       = (Js.Str greeting :: map (fun t => Js.Str (MockApp.reply t)) texts)%list
    /\ Forall (fun m => role m = agent) (pending (MockApp.run env evs)).
Proof.
  unfold MockApp.run.
  apply (fold_left_invariant (MockApp.step env)
           (fun s =>
              exists texts : list string,
                map text (by_role user (messages s)) = map Js.Str texts
                /\ map text (by_role agent (messages s) ++ pending s)
                   = (Js.Str greeting
                        :: map (fun t => Js.Str (MockApp.reply t)) texts)%list
                /\ Forall (fun m => role m = agent) (pending s))).
  - intros s ev [texts [Hu [Ha Hp]]]. destruct ev as [|v| |]; simpl.
    + exists texts. repeat split; assumption.
    + exists texts. repeat split; assumption.
    + submission s; [exists texts; repeat split; assumption|]. simpl.
      exists (texts ++ [trim (input s)])%list.
      rewrite !by_role_app, by_role_user_user, by_role_agent_user, app_nil_r
        by reflexivity.
      rewrite app_assoc,
        (map_app text (by_role agent (messages s) ++ pending s)), Ha,
        (map_app text (by_role user (messages s))), Hu, !map_app.
      split; [reflexivity|]. split; [reflexivity|].
      apply Forall_app. split; [exact Hp|].
      constructor; [reflexivity | constructor].
    + destruct (pending s) as [|a later] eqn:E.
      { unfold MockApp.timeout. rewrite !E. exists texts.
        repeat split; assumption. }
      rewrite (mock_timeout_fires s a later E). simpl.
      inversion Hp as [|? ? Hrole Hlater]; subst.
      unfold MockApp.Work in *.
      exists texts.
      rewrite !by_role_app, (by_role_user_agent a Hrole),
        (by_role_agent_agent a Hrole), app_nil_r, <- app_assoc.
      repeat split; assumption.
  - exists []. repeat split; constructor.
Qed.

Lemma mock_timeout_drains (s : State MockApp.Work) :
  Nat.iter (length (pending s)) MockApp.timeout s
  = {| messages := (messages s ++ pending s)%list; input := input s;
       pending := []; built := built s |}.
Proof.
  destruct s as [msgs inp pend b]. simpl.
  revert msgs. induction pend as [|a later IH]; intros msgs.
  - simpl. now rewrite app_nil_r.
  - cbn [length]. rewrite Nat.iter_succ_r.
    rewrite (mock_timeout_fires
               {| messages := msgs; input := inp;
                  pending := a :: later; built := b |} a later eq_refl).
    simpl. rewrite IH, <- app_assoc. reflexivity.
Qed.

(** X8: no reply of the mock is lost or doubled: once every timer that is
    set has expired, with nothing else happening, the store has grown by
    exactly the replies that were held, in the order their timers were set,
    and no timer is left; a further expiry changes nothing. *)
Theorem mock_timers_deliver_all (s : State MockApp.Work) :
  let s' := Nat.iter (length (pending s)) MockApp.timeout s in
  messages s' = (messages s ++ pending s)%list
  /\ pending s' = []
  /\ input s' = input s
  /\ MockApp.timeout s' = s'.
Proof.
  cbv zeta. rewrite mock_timeout_drains. simpl. repeat split.
Qed.

End MockReplies.

(** ** The network variant: requests, answers without a reply, time stamps *)

Section NetworkFacts.
Import Chat ChatFacts JsCase.
Variable env : Env.

Lemma own_property_missing (props : list (string * Js.value)) (key : string) :
  ~ In key (map fst props) -> Js.own_property props key = Js.Undefined.
Proof.
  induction props as [|[k v] rest IH]; simpl; [reflexivity|].
  intros H. destruct (String.eqb_spec k key) as [->|Hne]; [tauto|].
  apply IH. tauto.
Qed.

(** X9: a 2xx answer whose JSON body has no [reply] (an object without
    that property, or a boolean, number, string or array) is not taken as a
    failure: exactly one agent message is appended, and its text is
    [undefined]. *)
Theorem answer_without_reply_is_undefined
  (st : State NetworkApp.Work) (k : nat) (request : NetworkApp.Request)
  (status : N) (data : Js.value) :
  nth_error (pending st) k = Some request ->
  NetworkApp.ok status = true ->
  data <> Js.Null -> data <> Js.Undefined ->
  (forall props, data = Js.Obj props -> ~ In "reply" (map fst props)) ->
  NetworkApp.settle env k
    (NetworkApp.FetchResolves status (NetworkApp.JsonResolves data)) st
  = {| messages :=
         (messages st ++ [literal env (built st) agent Js.Undefined])%list;
       input := input st;
       pending := remove_nth k (pending st);
       built := S (built st) |}.
Proof.
  intros Hk Hok Hnull Hundef Hprops.
  rewrite (network_settle_pending env st k _ request Hk). simpl. rewrite Hok.
  destruct data as [| |b|n|s|items|props]; simpl; try reflexivity;
    try contradiction.
  now rewrite (own_property_missing props "reply" (Hprops props eq_refl)).
Qed.

(** X10: the request tells the text: two texts with the same request are
    the same text. *)
Theorem request_determines_text (text1 text2 : string) :
  NetworkApp.fetch_request text1 = NetworkApp.fetch_request text2 ->
  text1 = text2.
Proof.
  intros E. apply (f_equal NetworkApp.body) in E.
  apply (f_equal Js.JSON_parse_field) in E.
  unfold NetworkApp.fetch_request in E. cbn [NetworkApp.body] in E.
  rewrite !parse_stringify_field in E. congruence.
Qed.






Lemma Forall_remove_nth {A} (P : A -> Prop) (k : nat) (l : list A) :
  Forall P l -> Forall P (remove_nth k l).
Proof.
  revert k. induction l as [|x l IH]; intros k H; [destruct k; constructor|].
  inversion H as [|? ? Hx Hl]; subst.
  destruct k as [|k]; simpl; [exact Hl|].
  constructor; [exact Hx | now apply IH].
Qed.

Lemma network_requests_well_formed (evs : list NetworkApp.Event) :
  Forall backend_request (pending (NetworkApp.run env evs)).
Proof.
  unfold NetworkApp.run.
  apply (fold_left_invariant (NetworkApp.step env)
           (fun s => Forall backend_request (pending s))).
  - intros s ev H. destruct ev as [|v| |k o]; simpl.
    + exact H.
    + exact H.
    + submission s; [exact H|]. simpl.
      apply Forall_app. split; [exact H|].
      constructor; [|constructor].
      exists (trim (input s)).
      split; [reflexivity|]. split; [assumption | apply trim_idempotent].
    + destruct (nth_error (pending s) k) as [request|] eqn:E.
      * rewrite (network_settle_pending env s k o request E). simpl.
        now apply Forall_remove_nth.
      * now rewrite network_settle_idle.
  - constructor.
Qed.

(** X12: along any page view of the network variant, every request under
    way is a POST to the one fixed address with a JSON content type, and its
    body reads back as the single field [message] with a text that is not
    empty and has no white space around it. *)
Theorem requests_go_to_the_backend (evs : list NetworkApp.Event) :
  Forall
    (fun r =>
       NetworkApp.url r = "http://127.0.0.1:8000/chat/turn"
       /\ NetworkApp.method r = "POST"
       /\ NetworkApp.headers r = [("Content-Type", "application/json")]
       /\ exists t,
            Js.JSON_parse_field (NetworkApp.body r) = Some ("message", t)
            /\ t <> "" /\ trim t = t)
    (pending (NetworkApp.run env evs)).
Proof.
  eapply Forall_impl; [|apply network_requests_well_formed].
  intros r [t [-> [Ht Htrim]]].
  split; [reflexivity|]. split; [reflexivity|]. split; [reflexivity|].
  exists t. split; [apply parse_stringify_field|]. split; assumption.
Qed.

Lemma StronglySorted_snoc {A} (R : A -> A -> Prop) (l : list A) (x : A) :
  StronglySorted R l -> Forall (fun y => R y x) l ->
  StronglySorted R (l ++ [x]).
Proof.
  induction 1 as [|y l Hl IH Hy]; intros Hx; simpl.
  - constructor; constructor.
  - inversion Hx as [|? ? Hyx Hlx]; subst.
    constructor; [now apply IH|].
    apply Forall_app. split; [exact Hy|]. constructor; [exact Hyx|constructor].
Qed.

Lemma network_stamps_sorted (Hclock : monotone_clock env)
  (evs : list NetworkApp.Event) :
  StronglySorted Z.le (map createdAt (messages (NetworkApp.run env evs)))
  /\ Forall (fun t => exists k, k < built (NetworkApp.run env evs)
                                /\ t = Date_now env k)
       (map createdAt (messages (NetworkApp.run env evs))).
Proof.
  unfold NetworkApp.run.
  apply (fold_left_invariant (NetworkApp.step env)
           (fun s =>
              StronglySorted Z.le (map createdAt (messages s))
              /\ Forall (fun t => exists k, k < built s /\ t = Date_now env k)
                   (map createdAt (messages s)))).
  - intros s ev [Hs Hb].
    assert (Hmono : forall n, built s <= n ->
               Forall (fun t => exists k, k < n /\ t = Date_now env k)
                 (map createdAt (messages s))).
    { intros n Hn. eapply Forall_impl; [|exact Hb].
      intros t [k [Hk E]]. exists k. split; [lia | exact E]. }
    assert (Hsnoc : forall r t,
               StronglySorted Z.le
                 (map createdAt (messages s ++ [literal env (built s) r t]))
               /\ Forall (fun t => exists k, k < S (built s) /\ t = Date_now env k)
                    (map createdAt (messages s ++ [literal env (built s) r t]))).
    { intros r t. rewrite map_app. simpl. split.
      - apply StronglySorted_snoc; [exact Hs|].
        eapply Forall_impl; [|exact Hb].
        intros z [k [Hk ->]]. apply Hclock. lia.
      - apply Forall_app. split; [apply Hmono; lia|].
        constructor; [|constructor]. exists (built s). split; [lia|reflexivity]. }
    destruct ev as [|v| |k o]; simpl.
    + split; [exact Hs | apply Hmono; lia].
    + split; assumption.
    + submission s; [split; assumption|]. simpl. apply Hsnoc.
    + destruct (nth_error (pending s) k) as [request|] eqn:E.
      * rewrite (network_settle_pending env s k o request E). simpl.
        apply Hsnoc.
      * rewrite network_settle_idle by assumption. split; assumption.
  - simpl. split.
    + constructor; constructor.
    + constructor; [|constructor]. exists 0. split; [lia | reflexivity].
Qed.

(** X13: with a clock that never runs backwards, the store of the network
    variant is in the order of its time stamps: a message is never shown
    above one that was created before it. *)
Theorem network_store_sorted_by_time (evs : list NetworkApp.Event) :
  monotone_clock env ->
  StronglySorted Z.le (map createdAt (messages (NetworkApp.run env evs))).
Proof. intros Hclock. apply (network_stamps_sorted Hclock evs). Qed.

(** X14: what the bubble says when [fetch] throws: the message of the
    exception, or, when that is empty, its name; the name is not shown
    beside a message. *)
Theorem thrown_error_text
  (st : State NetworkApp.Work) (k : nat) (request : NetworkApp.Request)
  (err : Js.Error) :
  nth_error (pending st) k = Some request ->
  messages (NetworkApp.settle env k (NetworkApp.FetchRejects err) st)
  = (messages st
       ++ [literal env (built st) agent
             (Js.Str ("⚠️ Error: "
                        ++ (if String.eqb (Js.message err) "" then Js.name err
                            else Js.message err)))])%list.
Proof.
  intros Hk. rewrite (network_settle_pending env st k _ request Hk). simpl.
  unfold NetworkApp.error_text, Js.Error_toString.
  destruct (Js.message err) as [|c m]; simpl; [|reflexivity].
  destruct (Js.name err); reflexivity.
Qed.

End NetworkFacts.

(** ** The theme listener: what it leaves alone, and repeated deliveries *)

Section ThemeFacts.
Import Theme.
Context {View : Type}.

Lemma classList_add_idempotent (token : string) (l : list string) :
  classList_add token (classList_add token l) = classList_add token l.
Proof.
  unfold classList_add at 1.
  destruct (existsb (String.eqb token) (classList_add token l)) eqn:E;
    [reflexivity|].
  assert (H : existsb (String.eqb token) (classList_add token l) = true).
  { apply existsb_exists. exists token.
    split; [apply classList_add_in | apply String.eqb_refl]. }
  congruence.
Qed.

Lemma classList_remove_idempotent (token : string) (l : list string) :
  classList_remove token (classList_remove token l) = classList_remove token l.
Proof.
  unfold classList_remove. induction l as [|t l IH]; simpl; [reflexivity|].
  destruct (String.eqb token t) eqn:E; simpl; [exact IH|].
  rewrite E. simpl. now rewrite IH.
Qed.

Lemma applyTheme_idempotent (theme : string) (root : Element) :
  applyTheme theme (applyTheme theme root) = applyTheme theme root.
Proof.
  unfold applyTheme. destruct (String.eqb theme "dark"); simpl.
  - now rewrite classList_add_idempotent.
  - now rewrite classList_remove_idempotent.
Qed.

Lemma onStorage_idempotent (e : StorageEvent) (root : Element) :
  onStorage e (onStorage e root) = onStorage e root.
Proof.
  unfold onStorage.
  destruct (strict_eq (key e) "theme"
            && (strict_eq (newValue e) "dark" || strict_eq (newValue e) "light"));
    [|reflexivity].
  destruct (newValue e); [apply applyTheme_idempotent | reflexivity].
Qed.

(** X15: the listener may be mounted any number of times (as under
    [StrictMode]): delivering a storage event to one listener or to several
    leaves the same document element, and delivering the event again
    changes nothing. *)
Theorem listeners_count_does_not_matter (e : StorageEvent) (t : Tab View) :
  documentElement (dispatch_storage e (ThemeSync_mount t))
  = onStorage e (documentElement t)
  /\ dispatch_storage e (dispatch_storage e (ThemeSync_mount t))
     = dispatch_storage e (ThemeSync_mount t).
Proof.
  assert (H : forall n root,
             Nat.iter (S n) (onStorage e) root = onStorage e root).
  { induction n as [|n IH]; intros root; [reflexivity|].
    change (Nat.iter (S (S n)) (onStorage e) root)
      with (onStorage e (Nat.iter (S n) (onStorage e) root)).
    now rewrite IH, onStorage_idempotent. }
  split; [apply H|].
  unfold dispatch_storage, ThemeSync_mount.
  cbn [documentElement listeners view].
  now rewrite !H, onStorage_idempotent.
Qed.

Lemma classList_add_other (token other : string) (l : list string) :
  other <> token -> (In other (classList_add token l) <-> In other l).
Proof.
  intros Hne. unfold classList_add.
  destruct (existsb (String.eqb token) l); [tauto|].
  rewrite in_app_iff. simpl. intuition congruence.
Qed.

Lemma classList_remove_other (token other : string) (l : list string) :
  other <> token -> (In other (classList_remove token l) <-> In other l).
Proof.
  intros Hne. unfold classList_remove. rewrite filter_In.
  split; [tauto|]. intros H. split; [exact H|].
  apply negb_true_iff, String.eqb_neq. congruence.
Qed.

Lemma classList_add_NoDup (token : string) (l : list string) :
  NoDup l -> NoDup (classList_add token l).
Proof.
  intros H. unfold classList_add.
  destruct (existsb (String.eqb token) l) eqn:E; [exact H|].
  apply (Permutation_NoDup (Permutation_cons_append l token)).
  constructor; [|exact H].
  intros Hin.
  assert (Ht : existsb (String.eqb token) l = true).
  { apply existsb_exists. exists token. split; [exact Hin | apply String.eqb_refl]. }
  congruence.
Qed.

(** X16: a storage event touches the class [dark] and the colour scheme
    and nothing else of the document element: every other class is there
    afterwards exactly if it was there before, and a class list without
    repetitions stays without repetitions. *)
Theorem storage_event_keeps_other_classes
  (e : StorageEvent) (root : Element) (other : string) :
  other <> "dark" ->
  (In other (classList (onStorage e root)) <-> In other (classList root))
  /\ (NoDup (classList root) -> NoDup (classList (onStorage e root))).
Proof.
  intros Hne. unfold onStorage.
  destruct (strict_eq (key e) "theme"
            && (strict_eq (newValue e) "dark" || strict_eq (newValue e) "light"));
    [|tauto].
  destruct (newValue e) as [v|]; [|tauto].
  unfold applyTheme. destruct (String.eqb v "dark"); simpl; split.
  - now apply classList_add_other.
  - apply classList_add_NoDup.
  - now apply classList_remove_other.
  - apply NoDup_filter.
Qed.

Lemma classList_remove_absent (token : string) (l : list string) :
  ~ In token l -> classList_remove token l = l.
Proof.
  unfold classList_remove. induction l as [|t l IH]; simpl; [reflexivity|].
  intros H. destruct (String.eqb_spec token t) as [->|Hne]; [tauto|].
  simpl. rewrite IH; [reflexivity | tauto].
Qed.

(** X17: switching to dark and back restores a light document element as
    it was: after the event for [dark] and then the event for [light], the
    class list and the colour scheme are those before the two events. *)
Theorem dark_then_light_restores
  (root : Element) (old1 old2 : option string) (from1 from2 : string) :
  ~ In "dark" (classList root) ->
  colorScheme root = "light" ->
  onStorage
    {| key := Some "theme"; oldValue := old2;
       newValue := Some "light"; url := from2 |}
    (onStorage
       {| key := Some "theme"; oldValue := old1;
          newValue := Some "dark"; url := from1 |}
       root)
  = root.
Proof.
  intros Hout Hscheme.
  change (onStorage _ (onStorage _ root))
    with {| classList := classList_remove "dark"
                           (classList_add "dark" (classList root));
            colorScheme := "light" |}.
  destruct root as [l scheme]. cbn [classList colorScheme] in *. subst scheme.
  f_equal. unfold classList_add.
  destruct (existsb (String.eqb "dark") l) eqn:E.
  - apply existsb_exists in E as [t [Hin Ht]].
    apply String.eqb_eq in Ht. subst t. contradiction.
  - unfold classList_remove at 1. rewrite filter_app.
    change (filter _ ["dark"]) with (@nil string).
    rewrite app_nil_r. now apply classList_remove_absent.
Qed.

End ThemeFacts.

(** ** Scroll-sync *)

Section ScrollFacts.
Import Chat ScrollSync.
Variable env : Env.



End ScrollFacts.

(** ** The rendered list *)

Section Rendering.
Import Chat.
Variable env : Env.
Hypothesis fresh : fresh_identifiers env.

Lemma bubbles_keys (msgs : list Message) : map fst (bubbles msgs) = map id msgs.
Proof. unfold bubbles. rewrite map_map. reflexivity. Qed.

Lemma bubbles_alignment (msgs : list Message) :
  map (fun kb => className (snd kb)) (bubbles msgs)
  = map (fun m => match role m with
                  | user => "flex justify-end"
                  | agent => "flex justify-start"
                  end) msgs.
Proof.
  unfold bubbles. rewrite map_map. apply map_ext.
  intros m. simpl. destruct (role m); reflexivity.
Qed.

(** X19: when the generator never repeats an identifier, the list that is
    rendered has pairwise distinct React keys, along any page view of either
    variant; it has one bubble for each message, to the right for a user
    message and to the left for an agent message. *)
Theorem rendered_keys_are_distinct :
  (forall evs,
      NoDup (map fst (bubbles (messages (MockApp.run env evs))))
      /\ map (fun kb => className (snd kb))
           (bubbles (messages (MockApp.run env evs)))
         = map (fun m => match role m with
                         | user => "flex justify-end"
                         | agent => "flex justify-start"
                         end) (messages (MockApp.run env evs)))
  /\ (forall evs,
      NoDup (map fst (bubbles (messages (NetworkApp.run env evs))))
      /\ map (fun kb => className (snd kb))
           (bubbles (messages (NetworkApp.run env evs)))
         = map (fun m => match role m with
                         | user => "flex justify-end"
                         | agent => "flex justify-start"
                         end) (messages (NetworkApp.run env evs))).
Proof.
  split; intros evs; (split; [|apply bubbles_alignment]); rewrite bubbles_keys.
  - assert (H : MockApp.distinct_identifiers env (MockApp.run env evs)).
    { apply (fold_left_invariant (MockApp.step env)
               (MockApp.distinct_identifiers env)
               (mock_step_distinct env fresh) evs).
      apply mock_init_distinct. }
    destruct H as [H _]. unfold MockApp.created in H.
    rewrite map_app in H. exact (NoDup_app_remove_r _ _ H).
  - assert (H : NetworkApp.distinct_identifiers env (NetworkApp.run env evs)).
    { apply (fold_left_invariant (NetworkApp.step env)
               (NetworkApp.distinct_identifiers env)
               (network_step_distinct env fresh) evs).
      apply network_init_distinct. }
    exact (proj1 H).
Qed.

End Rendering.

(** ** The further properties at work on the sample page view *)

Section MoreWitnesses.
Import Chat ChatFacts JsCase.

Lemma sample_clock_monotone : monotone_clock Sample.env.
Proof. intros i j Hij. unfold Sample.env. cbn [Date_now]. lia. Qed.

(** In the mock a reply is stamped when its timer is set and shown when it
    expires, so there the store need not be in the order of the stamps. *)
Lemma mock_store_unsorted_example :
  map createdAt
    (messages
       (MockApp.run Sample.env
          [MockApp.Change "one"; MockApp.Submit;
           MockApp.Change "two"; MockApp.Submit; MockApp.Timeout]))
  = [1700000000000; 1700000000001; 1700000000003; 1700000000002]%Z.
Proof. reflexivity. Qed.

Lemma submission_keeps_the_core_witness :
  trim (input Sample.mock_draft) <> ""
  /\ trim (input Sample.network_draft) <> ""
  /\ (exists pre t post,
        input Sample.mock_draft = pre ++ t ++ post
        /\ whitespace_only pre = true /\ whitespace_only post = true
        /\ messages (MockApp.handleSend Sample.env Sample.mock_draft)
           = (messages Sample.mock_draft
                ++ [literal Sample.env (built Sample.mock_draft) user (Js.Str t)])%list).
Proof.
  destruct sample_drafts_accepted as [Hm Hn].
  split; [exact Hm|]. split; [exact Hn|].
  exact (proj1 (submission_keeps_the_core Sample.env Sample.mock_draft
                  Sample.network_draft Hm Hn)).
Defined.

Lemma looksLikeBatch_ignores_case_witness :
  canonical "Generate 8 Posters" = canonical "gEnErAtE 8 posters"
  /\ MockApp.looksLikeBatch "Generate 8 Posters"
     = MockApp.looksLikeBatch "gEnErAtE 8 posters".
Proof.
  split; [reflexivity|].
  exact (looksLikeBatch_ignores_case "Generate 8 Posters" "gEnErAtE 8 posters"
           eq_refl).
Defined.

Lemma regexp_test_iff_contains_witness :
  regexp_test MockApp.action_keywords "Please MAKE it" = true.
Proof.
  apply (proj2 (regexp_test_iff_contains MockApp.action_keywords "Please MAKE it")).
  exists "make", "Please ", "MAKE", " it".
  split; [right; left; reflexivity|]. split; reflexivity.
Defined.

Lemma answer_without_reply_is_undefined_witness :
  nth_error (pending Sample.network_waiting) 0
  = Some (NetworkApp.fetch_request "hello")
  /\ NetworkApp.ok 201 = true
  /\ NetworkApp.settle Sample.env 0
       (NetworkApp.FetchResolves 201
          (NetworkApp.JsonResolves (Js.Obj [("answer", Js.Str "Hi")])))
       Sample.network_waiting
     = {| messages :=
            (messages Sample.network_waiting
               ++ [literal Sample.env 2 agent Js.Undefined])%list;
          input := "";
          pending := [];
          built := 3 |}.
Proof.
  split; [reflexivity|]. split; [reflexivity|].
  apply (answer_without_reply_is_undefined Sample.env Sample.network_waiting 0
           (NetworkApp.fetch_request "hello") 201%N
           (Js.Obj [("answer", Js.Str "Hi")]) eq_refl eq_refl).
  - discriminate.
  - discriminate.
  - intros props E. injection E as <-. simpl. intros [H | []]. discriminate H.
Defined.

Lemma request_determines_text_witness :
  NetworkApp.fetch_request "hello" = NetworkApp.fetch_request "hello"
  /\ "hello" = "hello"
  /\ NetworkApp.fetch_request ("a" ++ Js.DQ) <> NetworkApp.fetch_request ("a" ++ Js.BSL ++ Js.DQ).
Proof.
  split; [reflexivity|].
  split; [exact (request_determines_text "hello" "hello" eq_refl)|].
  intros E. apply request_determines_text in E. discriminate E.
Defined.

Lemma network_store_sorted_by_time_witness :
  monotone_clock Sample.env
  /\ StronglySorted Z.le
       (map createdAt
          (messages
             (NetworkApp.run Sample.env
                [NetworkApp.Change "one"; NetworkApp.Submit;
                 NetworkApp.Change "two"; NetworkApp.Submit;
                 NetworkApp.Settle 1
                   (NetworkApp.FetchRejects (Js.mkError "TypeError" "Failed to fetch"));
                 NetworkApp.Settle 0
                   (NetworkApp.FetchResolves 200
                      (NetworkApp.JsonResolves (Js.Obj [("reply", Js.Str "1")])))]))).
Proof.
  split; [exact sample_clock_monotone|].
  apply (network_store_sorted_by_time Sample.env _ sample_clock_monotone).
Defined.

Lemma thrown_error_text_witness :
  nth_error (pending Sample.network_waiting) 0
  = Some (NetworkApp.fetch_request "hello")
  /\ messages
       (NetworkApp.settle Sample.env 0
          (NetworkApp.FetchRejects (Js.mkError "TypeError" ""))
          Sample.network_waiting)
     = (messages Sample.network_waiting
          ++ [literal Sample.env 2 agent (Js.Str "⚠️ Error: TypeError")])%list.
Proof.
  split; [reflexivity|].
  exact (thrown_error_text Sample.env Sample.network_waiting 0
           (NetworkApp.fetch_request "hello") (Js.mkError "TypeError" "")
           eq_refl).
Defined.

Lemma storage_event_keeps_other_classes_witness :
  "app" <> "dark"
  /\ In "app"
       (Theme.classList
          (Theme.onStorage
             (Theme.mkStorageEvent (Some "theme") (Some "light") (Some "dark")
                "http://localhost:5173/")
             (Theme.documentElement Sample.tab))).
Proof.
  assert (H : "app" <> "dark") by discriminate.
  split; [exact H|].
  apply (proj1 (storage_event_keeps_other_classes
                  (Theme.mkStorageEvent (Some "theme") (Some "light") (Some "dark")
                     "http://localhost:5173/")
                  (Theme.documentElement Sample.tab) "app" H)).
  left. reflexivity.
Defined.

Lemma dark_then_light_restores_witness :
  ~ In "dark" (Theme.classList (Theme.documentElement Sample.tab))
  /\ Theme.colorScheme (Theme.documentElement Sample.tab) = "light"
  /\ Theme.onStorage
       (Theme.mkStorageEvent (Some "theme") (Some "dark") (Some "light")
          "http://localhost:5173/")
       (Theme.onStorage
          (Theme.mkStorageEvent (Some "theme") (Some "light") (Some "dark")
             "http://localhost:5173/")
          (Theme.documentElement Sample.tab))
     = Theme.documentElement Sample.tab.
Proof.
  assert (H : ~ In "dark" (Theme.classList (Theme.documentElement Sample.tab))).
  { simpl. intros [H | []]. discriminate H. }
  split; [exact H|]. split; [reflexivity|].
  exact (dark_then_light_restores (Theme.documentElement Sample.tab)
           (Some "light") (Some "dark") "http://localhost:5173/"
           "http://localhost:5173/" H eq_refl).
Defined.

Lemma rendered_keys_are_distinct_witness :
  fresh_identifiers Sample.env
  /\ NoDup
       (map fst
          (bubbles
             (messages
                (MockApp.run Sample.env
                   [MockApp.Change "make a poster"; MockApp.Submit;
                    MockApp.Timeout])))).
Proof.
  split; [exact sample_identifiers_fresh|].
  exact (proj1 (proj1 (rendered_keys_are_distinct Sample.env
                         sample_identifiers_fresh)
                  [MockApp.Change "make a poster"; MockApp.Submit;
                   MockApp.Timeout])).
Defined.

End MoreWitnesses.
